(** * dbt seed task: a shallow embedding of [core/dbt/task/seed.py]

    The Python module defines two classes, [SeedRunner] (a [ModelRunner])
    and [SeedTask] (a [RunTask]).  Their methods read the receiver [self],
    fire structured events, print to the terminal and may raise.  They are
    embedded as computations in a state-and-exception monad [M Self A]:
    the receiver and the outside world are threaded explicitly, so that
    "does not mutate" and "emits exactly this" are statements about the
    returned receiver and the returned world. *)

From Stdlib Require Import List String Ascii Bool Arith Lia.
From Stdlib Require Import QArith Lqa Permutation DecimalString.
Import ListNotations.
Local Open Scope string_scope.
Local Open Scope list_scope.
Local Open Scope nat_scope.

Set Implicit Arguments.

(** ** Data model *)

(** Modelled from the spec: [dbt.node_types.NodeType] is not under src/.
    The spec (section 3) describes the declared resource type as a tagged
    variant of which this task cares about [Seed] only; the other
    constructors stand for the remaining resource types. *)
Inductive NodeType : Type :=
| Model | Analysis | Test | Snapshot | Operation | Seed | Source.

Definition NodeType_eqb (a b : NodeType) : bool :=
  match a, b with
  | Model, Model | Analysis, Analysis | Test, Test | Snapshot, Snapshot
  | Operation, Operation | Seed, Seed | Source, Source => true
  | _, _ => false
  end.

(** Modelled from the spec: [dbt.contracts.results.NodeStatus] is not under
    src/.  Section 3 gives the status as the tagged variant Success, Error,
    Skipped.  [RunStatus.Error] and [NodeStatus.Error] are the same value
    (both enumerations are string enumerations sharing their members), so
    one type serves for both names. *)
Inductive NodeStatus : Type := Success | Error | Skipped.

Definition NodeStatus_eqb (a b : NodeStatus) : bool :=
  match a, b with
  | Success, Success | Error, Error | Skipped, Skipped => true
  | _, _ => false
  end.

(** Modelled from the spec: [dbt.events.base_types.EventLevel] is not under
    src/.  Section 6 has every notification tagged with a severity level;
    the module names [ERROR] and [INFO], the other levels stand for the
    remaining severities. *)
Inductive EventLevel : Type := DEBUG | TEST | INFO | WARN | ERROR.

(** The [node_info] dictionary attached to log events. *)
Definition NodeInfo : Type := list (string * string).

(** A resource node, with the attributes the module reads. *)
Record ResourceNode : Type := mkNode {
  unique_id : string;
  resource_type : NodeType;
  schema : string;
  alias : string;
  node_info : NodeInfo
}.

(** An agate table: named columns and rows of cells. *)
Definition Row : Type := list string.

Record Table : Type := mkTable {
  column_names : list string;
  rows : list Row
}.

(** A run result.  [agate_table] is the optional payload: it is absent on
    results that were not built by [SeedRunner._build_run_model_result]. *)
Module RunResult.
Record t : Type := mk {
  status : NodeStatus;
  message : string;
  execution_time : Q;
  node : ResourceNode;
  agate_table : option Table
}.
End RunResult.
Import RunResult(status, message, execution_time, agate_table).

(** [result.agate_table = tbl]: the attribute is set, the others stay. *)
Definition set_agate_table (r : RunResult.t) (tbl : option Table) : RunResult.t :=
  RunResult.mk (status r) (message r) (execution_time r) (RunResult.node r) tbl.

(** The object returned by [context["load_result"](name)]. *)
Record AgateResult : Type := mkAgateResult { table : Table }.

(** The execution context: the dictionary entry ["load_result"] is a
    callable from a result name to the result stored under that name, or
    to [None] when nothing is stored under it. *)
Record Context : Type := mkContext { load_result : string -> option AgateResult }.

(** Handles received from the graph and manifest provider. *)
Record Graph : Type := mkGraph { graph_nodes : list ResourceNode }.
Record Manifest : Type := mkManifest { manifest_nodes : list ResourceNode }.
Record PreviousState : Type := mkPreviousState { state_path : string }.

(** ** Events and observable effects *)

(** The event types of [dbt.events.types] used by the module, the events
    with which [run_cmd] reports a command, and the end-of-run summary
    emitted by [print_run_end_messages]. *)
Inductive Event : Type :=
| LogStartLine (description : string) (index total : nat) (info : NodeInfo)
| LogSeedResult (st : NodeStatus) (result_message : string)
                (index total : nat) (time : Q)
                (schema_name relation : string) (info : NodeInfo)
| SeedHeader (header : string)
| Formatting (msg : string)
| SystemExecutingCmd (cmd : list string)
| SystemStdOut (bmsg : string)
| SystemStdErr (bmsg : string)
| SystemReportReturnCode (returncode : Z)
| RunEndSummary (n_success n_error n_skipped : nat) (elapsed : Q).

(** What the outside world observes, in order. *)
Inductive Effect : Type :=
| Fired (e : Event) (level : option EventLevel) (text_only : bool)
| TablePrinted (columns : list string) (shown : list Row)
| Stdout (text : string)
| Slept (seconds : Q)
| Fetched (url : string)
| TempFileCreated (name : string)
| FileWrite (name content : string)
| FileClosed (name : string)
| CommandRun (cwd : string) (cmd : list string).

(** What the outside world answers: the stream of [random.random()]
    draws (only their order matters, so they are abstracted to naturals),
    the HTTP server ([None] when the request fails), the shell (what a
    command that ends with return code zero wrote to its output and to its
    error stream, [None] for a command that fails), the report of a
    command that fails (its return code, which is not zero, and what it
    wrote; [None] when it could not be started at all), the working
    directory and the name given to a temporary file. *)
Record Env : Type := mkEnv {
  random_stream : nat -> nat;
  http_content : string -> option string;
  shell : string -> list string -> option (string * string);
  exit_report : string -> list string -> option (positive * string * string);
  cwd : string;
  temp_name : string
}.

Record World : Type := mkWorld {
  env : Env;
  trace : list Effect;
  text_only_mode : bool;
  rng_cursor : nat
}.

Definition emit (x : Effect) (w : World) : World :=
  mkWorld (env w) (trace w ++ [x]) (text_only_mode w) (rng_cursor w).

Definition set_text_only (b : bool) (w : World) : World :=
  mkWorld (env w) (trace w) b (rng_cursor w).

Definition advance_rng (w : World) : World :=
  mkWorld (env w) (trace w) (text_only_mode w) (S (rng_cursor w)).

(** ** The monad of methods *)

Inductive Exception : Type :=
| DbtInternalError (msg : string)
| AttributeError (msg : string)
| ConnectionError (url : string)
| CommandError (cmd : list string)
| ValueError (msg : string)
| OverflowError (msg : string)
| ExecutionError (msg : string).

Inductive Outcome (A : Type) : Type :=
| Return (a : A)
| Raise (e : Exception).
Arguments Raise {A} e.

Definition M (Self A : Type) : Type := Self -> World -> Outcome A * Self * World.

Definition ret {Self A} (a : A) : M Self A :=
  fun s w => (Return a, s, w).

Definition raise {Self A} (e : Exception) : M Self A :=
  fun s w => (Raise e, s, w).

Definition bind {Self A B} (c : M Self A) (k : A -> M Self B) : M Self B :=
  fun s w =>
    match c s w with
    | (Return a, s', w') => k a s' w'
    | (Raise e, s', w') => (Raise e, s', w')
    end.

Notation "x <- c ;; k" := (bind c (fun x => k))
  (at level 61, c at next level, right associativity).
Notation "c ;; k" := (bind c (fun _ => k))
  (at level 61, right associativity).

Definition get_self {Self} : M Self Self :=
  fun s w => (Return s, s, w).

Definition effect {Self} (x : Effect) : M Self unit :=
  fun s w => (Return tt, s, emit x w).

(** [fire_event(e, level=...)]: the event reaches the sink together with
    the requested level ([None] keeps the event's own level) and with the
    text-only flag in force. *)
Definition fire_event {Self} (e : Event) (level : option EventLevel) : M Self unit :=
  fun s w => (Return tt, s, emit (Fired e level (text_only_mode w)) w).

(** [with TextOnly(): body]: the flag is set for the body and restored on
    the way out, also when the body raises. *)
Definition with_TextOnly {Self A} (body : M Self A) : M Self A :=
  fun s w =>
    let saved := text_only_mode w in
    match body s (set_text_only true w) with
    | (o, s', w') => (o, s', set_text_only saved w')
    end.

(** [for x in xs: body(x)]. *)
Fixpoint for_each {Self A} (xs : list A) (body : A -> M Self unit) : M Self unit :=
  match xs with
  | [] => ret tt
  | x :: rest => body x ;; for_each rest body
  end.

(** [random.random()]. *)
Definition random_random {Self} : M Self nat :=
  fun s w => (Return (random_stream (env w) (rng_cursor w)), s, advance_rng w).

(** ** [class SeedRunner(ModelRunner)] *)

Module SeedRunner.

Record t : Type := mk {
  node : ResourceNode;
  node_index : nat;
  num_nodes : nat
}.

Section Methods.

(** The inherited [ModelRunner._build_run_model_result], reached
    through [super()].  It is not under src/ and is taken as given. *)
Variable super_build_run_model_result :
  ResourceNode -> Context -> M t RunResult.t.

(** The inherited [get_node_representation], likewise taken as given. *)
Variable get_node_representation : M t string.

Definition describe_node : M t string :=
  representation <- get_node_representation ;;
  ret ("seed file " ++ representation)%string.

Definition before_execute : M t unit :=
  description <- describe_node ;;
  self <- get_self ;;
  fire_event
    (LogStartLine
       description
       (node_index self)
       (num_nodes self)
       (node_info (node self)))
    None.

Definition _build_run_model_result (model : ResourceNode) (context : Context)
  : M t RunResult.t :=
  result <- super_build_run_model_result model context ;;
  match load_result context "agate_table" with
  | None => raise (AttributeError "table")
  | Some agate_result =>
      let result := set_agate_table result (Some (table agate_result)) in
      ret result
  end.

Definition compile (manifest : Manifest) : M t ResourceNode :=
  self <- get_self ;;
  ret (node self).

Definition print_result_line (result : RunResult.t) : M t unit :=
  self <- get_self ;;
  let model := RunResult.node result in
  let level := if NodeStatus_eqb (status result) Error then ERROR else INFO in
  fire_event
    (LogSeedResult
       (status result)
       (message result)
       (node_index self)
       (num_nodes self)
       (execution_time result)
       (schema (node self))
       (alias model)
       (node_info model))
    (Some level).

End Methods.

End SeedRunner.

(** ** Collaborators of the task *)

(** Modelled from the spec: [dbt.graph.ResourceTypeSelector] is not under
    src/.  Section 3 describes the selection criteria as the desired
    resource types, the optional previous-run state and the graph and
    manifest handles; section 4.1 says that selection filters the full
    node set down to the nodes whose declared type is among the desired
    resource types, in the order provided by the graph, and that
    previous-state deferral never replaces a node of this resource type. *)
Module ResourceTypeSelector.

Record t : Type := mk {
  graph : Graph;
  manifest : Manifest;
  previous_state : option PreviousState;
  resource_types : list NodeType
}.

Definition node_is_match (sel : t) (n : ResourceNode) : bool :=
  existsb (NodeType_eqb (resource_type n)) (resource_types sel).

Definition select (sel : t) : list ResourceNode :=
  filter (node_is_match sel) (graph_nodes (graph sel)).

End ResourceTypeSelector.

Definition count_status (st : NodeStatus) (results : list RunResult.t) : nat :=
  List.length (filter (fun r => NodeStatus_eqb (status r) st) results).

Definition total_elapsed (results : list RunResult.t) : Q :=
  fold_right Qplus 0%Q (map execution_time results).

(** Modelled from the spec: [.printer.print_run_end_messages] is not under
    src/.  Section 4.3 says that the standard end-of-run summary carries
    the counts of success, error and skip and the total elapsed time; the
    function receives the results only, so the time is the sum of theirs. *)
Definition print_run_end_messages {Self} (results : list RunResult.t) : M Self unit :=
  fire_event
    (RunEndSummary (count_status Success results)
                   (count_status Error results)
                   (count_status Skipped results)
                   (total_elapsed results))
    None.

(** *** agate tables *)

(** [sorted(..., key=...)] is stable and ascending: an element goes in
    front of the first element whose key is not smaller. *)
Fixpoint insert_by_key (x : nat * Row) (l : list (nat * Row)) : list (nat * Row) :=
  match l with
  | [] => [x]
  | y :: rest =>
      if fst x <=? fst y then x :: y :: rest else y :: insert_by_key x rest
  end.

Definition sort_by_key (l : list (nat * Row)) : list (nat * Row) :=
  fold_right insert_by_key [] l.

(** The key function is called once per row, in row order. *)
Fixpoint keyed {Self} (key : Row -> M Self nat) (rs : list Row)
  : M Self (list (nat * Row)) :=
  match rs with
  | [] => ret []
  | r :: rest =>
      k <- key r ;;
      ks <- keyed key rest ;;
      ret ((k, r) :: ks)
  end.

(** Modelled from the spec: [order_by] belongs to the agate library and is
    not under src/.  Section 4.4 says that the order of the sample is
    randomized per invocation: [table.order_by(key)] is a new table with
    the same columns and the rows sorted by the key, one key per row. *)
Definition order_by {Self} (key : Row -> M Self nat) (tbl : Table) : M Self Table :=
  ks <- keyed key (rows tbl) ;;
  ret (mkTable (column_names tbl) (map snd (sort_by_key ks))).

Definition limit {A} (bound : option nat) (l : list A) : list A :=
  match bound with
  | None => l
  | Some n => firstn n l
  end.

(** Modelled from the spec: [print_table] belongs to the agate library and
    is not under src/.  Section 4.4 says that the rendering is bounded by a
    maximum row count and shows every column when the column count is
    unbounded; section 8 gives [min(M, max_rows)] rendered rows for an
    [M]-row table, also when [M = 0]. *)
Definition print_table {Self} (max_rows : nat) (max_columns : option nat)
                       (tbl : Table) : M Self unit :=
  effect (TablePrinted (limit max_columns (column_names tbl))
                       (map (limit max_columns) (firstn max_rows (rows tbl)))).

(** *** Terminal, network and shell *)

Definition nl : string := String (ascii_of_nat 10) "".
Definition cr : string := String (ascii_of_nat 13) "".
Definition esc : string := String (ascii_of_nat 27) "".

(** [print(text, end=e)]. *)
Definition print_end {Self} (text e : string) : M Self unit :=
  effect (Stdout (text ++ e)).

(** [print(text)]. *)
Definition print {Self} (text : string) : M Self unit :=
  print_end text nl.

(** The lengths [time.sleep] can take: the clock counts nanoseconds in 64
    bits. *)
Definition sleep_limit : Q := 9223372036854775807 # 1000000000.

Definition too_long (seconds : Q) : bool :=
  Qle_bool sleep_limit seconds || Qle_bool seconds (- sleep_limit).

(** [time.sleep(seconds)]: a length that does not fit the clock is refused
    with an overflow error, a negative length with a value error.  Lengths
    are floats in the program and rationals here. *)
Definition time_sleep {Self} (seconds : Q) : M Self unit :=
  if too_long seconds then
    raise (OverflowError "timestamp too large to convert to C _PyTime_t")
  else if Qle_bool 0 seconds then
    effect (Slept seconds)
  else
    raise (ValueError "sleep length must be non-negative").

Definition str_of_nat (n : nat) : string :=
  NilZero.string_of_uint (Nat.to_uint n).

(** ["-" * n]. *)
Fixpoint str_repeat (s : string) (n : nat) : string :=
  match n with
  | O => ""
  | S k => s ++ str_repeat s k
  end.

(** [requests.get(url=url).content]. *)
Definition requests_get_content {Self} (url : string) : M Self string :=
  fun s w =>
    match http_content (env w) url with
    | Some body => (Return body, s, emit (Fetched url) w)
    | None => (Raise (ConnectionError url), s, emit (Fetched url) w)
    end.

(** A process that has ended: its return code and what it wrote to its
    output and to its error stream. *)
Record Completed : Type := mkCompleted {
  returncode : Z;
  proc_out : string;
  proc_err : string
}.

(** Starting the command and waiting for it to end; the command error
    when it cannot be started. *)
Definition popen_communicate {Self} (dir : string) (cmd : list string) : M Self Completed :=
  fun s w =>
    match shell (env w) dir cmd with
    | Some (out, err) => (Return (mkCompleted 0 out err), s, emit (CommandRun dir cmd) w)
    | None =>
        match exit_report (env w) dir cmd with
        | Some (code, out, err) =>
            (Return (mkCompleted (Z.pos code) out err), s, emit (CommandRun dir cmd) w)
        | None => (Raise (CommandError cmd), s, emit (CommandRun dir cmd) w)
        end
    end.

(** [run_cmd(cwd, cmd)] of [dbt.clients.system], which is not under src/:
    it announces the command with an event, runs it, reports what the
    command wrote to its output and to its error stream with one event
    each, and returns the pair [(out, err)]; a return code other than zero
    is reported with one more event and raised as a command error. *)
Definition run_cmd {Self} (dir : string) (cmd : list string) : M Self (string * string) :=
  fire_event (SystemExecutingCmd cmd) None ;;
  proc <- popen_communicate dir cmd ;;
  fire_event (SystemStdOut (proc_out proc)) None ;;
  fire_event (SystemStdErr (proc_err proc)) None ;;
  if negb (returncode proc =? 0)%Z then
    fire_event (SystemReportReturnCode (returncode proc)) None ;;
    raise (CommandError cmd)
  else
    ret (proc_out proc, proc_err proc).

Definition os_getcwd {Self} : M Self string :=
  fun s w => (Return (cwd (env w)), s, w).

(** [with NamedTemporaryFile(mode="w+b") as fp: body(fp)]: the file is
    created, and it is closed when the block is left, also when the body
    raises.  Closing is what flushes the file (and removes it). *)
Definition with_NamedTemporaryFile {Self A} (body : string -> M Self A) : M Self A :=
  fun s w =>
    let name := temp_name (env w) in
    match body name s (emit (TempFileCreated name) w) with
    | (o, s', w') => (o, s', emit (FileClosed name) w')
    end.

(** [fp.write(content)]: the content is handed to the file object; nothing
    is flushed by the call. *)
Definition fp_write {Self} (name content : string) : M Self unit :=
  effect (FileWrite name content).

(** ** [class SeedTask(RunTask)] *)

(** The task arguments the module reads: [args.destiny], [args.freedom]
    and [args.show]. *)
Module Args.
Record t : Type := mk {
  destiny : bool;
  freedom : bool;
  show : bool
}.
End Args.

(** The adapter handed to [defer_to_manifest]. *)
Record Adapter : Type := mkAdapter { adapter_type : string }.

Module SeedTask.

Local Open Scope string_scope.

Record t : Type := mk {
  args : Args.t;
  manifest : option Manifest;
  graph : option Graph;
  previous_state : option PreviousState
}.

Definition defer_to_manifest (adapter : Adapter) (selected_uids : list string)
  : M t unit :=
  (* seeds don't defer *)
  ret tt.

Definition raise_on_first_error : M t bool :=
  ret false.

Definition get_node_selector : M t ResourceTypeSelector.t :=
  self <- get_self ;;
  match manifest self, graph self with
  | Some the_manifest, Some the_graph =>
      ret (ResourceTypeSelector.mk
             the_graph
             the_manifest
             (previous_state self)
             [Seed])
  | _, _ =>
      raise (DbtInternalError
               "manifest and graph must be set to get perform node selection")
  end.

Definition show_table (result : RunResult.t) : M t unit :=
  match agate_table result with
  | None => raise (AttributeError "agate_table")
  | Some table =>
      rand_table <- order_by (fun _ => random_random) table ;;
      let schema := schema (RunResult.node result) in
      let alias := alias (RunResult.node result) in
      let header := "Random sample of table: " ++ schema ++ "." ++ alias in
      with_TextOnly (fire_event (Formatting "") None) ;;
      fire_event (SeedHeader header) None ;;
      fire_event (Formatting (str_repeat "-" (String.length header))) None ;;
      print_table 10 None rand_table ;;
      with_TextOnly (fire_event (Formatting "") None)
  end.

Definition show_tables (results : list RunResult.t) : M t unit :=
  for_each results (fun result =>
    if negb (NodeStatus_eqb (status result) Error)
    then show_table result
    else ret tt).

Definition default_draw_interval : Q := (8 # 100)%Q.

(** [[s[:i+1] for i in range(len(s))]]. *)
Definition prefixes (s : string) : list string :=
  map (fun i => substring 0 (i + 1) s) (seq 0 (String.length s)).

Definition text_typing_animation (texts : list string) (highlight_color : nat)
                                 (draw_interval : Q) : M t unit :=
  print nl ;;
  for_each texts (fun s => print (esc ++ "[2m" ++ s ++ esc ++ "[0m")) ;;
  print_end (esc ++ "[" ++ str_of_nat (List.length texts) ++ "A") "" ;;
  for_each texts (fun s =>
    for_each (prefixes s) (fun t =>
      print_end (cr ++ esc ++ "[3" ++ str_of_nat highlight_color ++ "m" ++ t) "" ;;
      time_sleep draw_interval) ;;
    print "") ;;
  print "" ;;
  time_sleep (draw_interval * 5)%Q ;;
  print_end (esc ++ "[0m") "" ;;
  print (nl ++ nl).

Definition draw_asciiart (url : string) (img2txt_params : list string) : M t unit :=
  content <- requests_get_content url ;;
  with_NamedTemporaryFile (fun fp_name =>
    fp_write fp_name content ;;
    dir <- os_getcwd ;;
    out_err <- run_cmd dir ("img2txt" :: fp_name :: img2txt_params) ;;
    print (fst out_err) ;;
    print (nl ++ nl) ;;
    print ("元画像：" ++ url) ;;
    print (nl ++ nl)).

Definition destiny : M t unit :=
  text_typing_animation
    ["GUNNERY";
     "UNITED";
     "NUCLEAR";
     "DUETRION";
     "ADVANCED";
     "MANEUVER";
     "        SYSTEM"]
    1 default_draw_interval ;;
  draw_asciiart
    "https://www.gundam-seed.net/assets/img/common/logo/logo_destiny.png"
    ["-W"; "152"].

Definition freedom : M t unit :=
  text_typing_animation
    ["GENERATION";
     "UNRESTRICTED";
     "NETWORK";
     "DRIVE";
     "ASSAULT";
     "MODULE";
     "        COMPLEX"]
    1 default_draw_interval ;;
  draw_asciiart
    "https://www.gundam-seed.net/freedom/assets/img/common/logo/logo.png"
    ["-W"; "152"] ;;
  text_typing_animation
    ["2024 1.26 [Fri] ROAD SHOW"]
    3 default_draw_interval.

Definition task_end_messages (results : list RunResult.t) : M t unit :=
  self <- get_self ;;
  if Args.destiny (args self) then
    destiny
  else if Args.freedom (args self) then
    freedom
  else
    (if Args.show (args self) then show_tables results else ret tt) ;;
    print_run_end_messages results.

End SeedTask.

(** ** The orchestrator's use of the fail-fast policy *)

(** Modelled from the spec: the flags of the command line are not under
    src/.  Section 6 names a flag that controls whether fail-fast is
    enabled; section 5 says that fail-fast is not the default. *)
Module Flags.

Record t : Type := mk { fail_fast : bool }.

Definition default : t := mk false.

End Flags.

(** Modelled from the spec: a node that is not scheduled.  Section 3 has
    every selected node yield exactly one result; a node whose execution is
    never started is recorded as Skipped, with nothing executed and hence
    no message, no time and no payload. *)
Definition skipped_result (n : ResourceNode) : RunResult.t :=
  RunResult.mk Skipped "" 0%Q n None.

(** Modelled from the spec: the scheduling loop of [RunTask] is not under
    src/.  Sections 4.3 and 5 say that the lifecycle is scheduled over each
    selected node in order and that every node yields one result.  Upon an
    Error result, an enabled fail-fast flag stops the scheduling of new
    nodes, which are recorded as Skipped; otherwise the task's own policy
    is asked, and a task that raises on the first error makes the failure
    of the node the failure of the batch. *)
Fixpoint schedule {Self} (flags : Flags.t) (raise_on_first_error : M Self bool)
                  (run_node : ResourceNode -> RunResult.t)
                  (nodes : list ResourceNode) : M Self (list RunResult.t) :=
  match nodes with
  | [] => ret []
  | n :: rest =>
      let r := run_node n in
      if NodeStatus_eqb (status r) Error then
        if Flags.fail_fast flags then
          ret (r :: map skipped_result rest)
        else
          abort <- raise_on_first_error ;;
          if (abort : bool) then raise (ExecutionError (message r))
          else
            results <- schedule flags raise_on_first_error run_node rest ;;
            ret (r :: results)
      else
        results <- schedule flags raise_on_first_error run_node rest ;;
        ret (r :: results)
  end.

(** The run of a seed task over the selected nodes. *)
Definition run_selected (flags : Flags.t) (run_node : ResourceNode -> RunResult.t)
                        (nodes : list ResourceNode) : M SeedTask.t (list RunResult.t) :=
  schedule flags SeedTask.raise_on_first_error run_node nodes.

(** ** Vocabulary of the statements *)

Definition is_seed (n : ResourceNode) : bool := NodeType_eqb (resource_type n) Seed.

(** The results the sampling hook is meant to sample. *)
Definition not_error (r : RunResult.t) : bool := negb (NodeStatus_eqb (status r) Error).

Definition sampled (results : list RunResult.t) : list RunResult.t :=
  filter not_error results.

(** Every result that is not an Error carries the table payload. *)
Definition payloads_attached (results : list RunResult.t) : Prop :=
  forall r, In r results -> status r <> Error -> agate_table r <> None.

Definition sample_header (r : RunResult.t) : string :=
  ("Random sample of table: " ++ schema (RunResult.node r) ++ "."
     ++ alias (RunResult.node r))%string.

(** What one rendered sample looks like to the outside: a blank line, the
    header naming schema and alias, a rule as long as the header, the
    table restricted to the shown rows, a blank line. *)
Definition rendering (text_only : bool) (r : RunResult.t)
                     (columns : list string) (shown : list Row) : list Effect :=
  [ Fired (Formatting "") None true;
    Fired (SeedHeader (sample_header r)) None text_only;
    Fired (Formatting (str_repeat "-" (String.length (sample_header r)))) None text_only;
    TablePrinted columns shown;
    Fired (Formatting "") None true ].

(** [shown] is a sample of the payload of [r]: rows taken from the payload,
    as many as the payload has, up to ten, under all the columns. *)
Definition sample_of (r : RunResult.t) (columns : list string) (shown : list Row) : Prop :=
  exists tbl shuffled,
    agate_table r = Some tbl /\
    columns = column_names tbl /\
    Permutation shuffled (rows tbl) /\
    shown = firstn 10 shuffled /\
    List.length shown = Nat.min (List.length (rows tbl)) 10.

(** The effects of sampling the given results one after the other. *)
Inductive renderings (text_only : bool) : list RunResult.t -> list Effect -> Prop :=
| renderings_nil : renderings text_only [] []
| renderings_cons r rest columns shown effects :
    sample_of r columns shown ->
    renderings text_only rest effects ->
    renderings text_only (r :: rest) (rendering text_only r columns shown ++ effects).

(** The sampling hook as the specification words it: it returns, leaves
    the task as it was, and what it emitted is one rendered sample per
    result that is not an Error, in list order. *)
Definition samples_every_non_error (results : list RunResult.t)
                                   (s : SeedTask.t) (w : World) : Prop :=
  exists w' effects,
    SeedTask.show_tables results s w = (Return tt, s, w') /\
    trace w' = trace w ++ effects /\
    renderings (text_only_mode w) (sampled results) effects.


Definition is_summary (x : Effect) : bool :=
  match x with
  | Fired (RunEndSummary _ _ _ _) _ _ => true
  | _ => false
  end.

(** The summaries found in a trace, in order. *)
Definition summaries (tr : list Effect) : list Effect := filter is_summary tr.


(** A computation that emits no end-of-run summary, however it ends. *)
Definition summary_free {Self A} (c : M Self A) : Prop :=
  forall s w, summaries (trace (snd (c s w))) = summaries (trace w).

(** The builder as the specification words it: whatever the context, the
    result of the inherited builder comes back with a payload attached. *)
Definition attaches_payload
  (base : ResourceNode -> Context -> M SeedRunner.t RunResult.t)
  (model : ResourceNode) (context : Context) (s : SeedRunner.t) (w : World) : Prop :=
  forall r s' w',
    base model context s w = (Return r, s', w') ->
    exists r' tbl,
      SeedRunner._build_run_model_result base model context s w = (Return r', s', w') /\
      agate_table r' = Some tbl.

(** ** Vocabulary of the further properties *)

(** The world after more effects have been observed. *)
Definition extend (out : list Effect) (w : World) : World :=
  mkWorld (env w) (trace w ++ out) (text_only_mode w) (rng_cursor w).

(** A computation that returns [a], leaves its receiver alone and adds
    exactly [out] to what the world has observed. *)
Definition writes {Self A} (c : M Self A) (a : A) (out : list Effect) : Prop :=
  forall s w, c s w = (Return a, s, extend out w).

(** A computation that raises [e], leaves its receiver alone and has added
    exactly [out] to what the world has observed when it raises. *)
Definition fails {Self A} (c : M Self A) (e : Exception) (out : list Effect) : Prop :=
  forall s w, c s w = (Raise e, s, extend out w).

(** What [time.sleep] answers to a negative length. *)
Definition negative_sleep : Exception :=
  ValueError "sleep length must be non-negative".

(** Writing to the terminal and waiting, as opposed to events, tables,
    network, files and commands. *)
Definition is_terminal (x : Effect) : bool :=
  match x with
  | Stdout _ | Slept _ => true
  | _ => false
  end.

(** A trace made of terminal effects only. *)
Definition terminal_only (out : list Effect) : Prop :=
  Forall (fun x => is_terminal x = true) out.

(** The events by which [run_cmd] reports a command. *)
Definition is_system_event (e : Event) : bool :=
  match e with
  | SystemExecutingCmd _ | SystemStdOut _ | SystemStdErr _
  | SystemReportReturnCode _ => true
  | _ => false
  end.

(** What the task itself sends through dbt's output: printed tables and
    fired events other than the reports of [run_cmd]. *)
Definition is_task_output (x : Effect) : bool :=
  match x with
  | Fired e _ _ => negb (is_system_event e)
  | TablePrinted _ _ => true
  | _ => false
  end.

(** What is written to the terminal. *)
Definition is_stdout (x : Effect) : bool :=
  match x with
  | Stdout _ => true
  | _ => false
  end.

(** The pauses found in a trace, in order. *)
Definition sleeps (tr : list Effect) : list Q :=
  flat_map (fun x => match x with Slept d => [d] | _ => [] end) tr.

(** The number of characters of the texts of an animation. *)
Definition total_chars (texts : list string) : nat :=
  fold_right (fun s n => String.length s + n) 0 texts.

(** A computation that adds no effect selected by [p], however it ends. *)
Definition never_emits {Self A} (p : Effect -> bool) (c : M Self A) : Prop :=
  forall s w, filter p (trace (snd (c s w))) = filter p (trace w).

Definition destiny_url : string :=
  "https://www.gundam-seed.net/assets/img/common/logo/logo_destiny.png".

Definition freedom_url : string :=
  "https://www.gundam-seed.net/freedom/assets/img/common/logo/logo.png".

(** The command line run on the downloaded image. *)
Definition img2txt_command (w : World) (params : list string) : list string :=
  "img2txt" :: temp_name (env w) :: params.

(** How drawing a picture ends, as the world answers the fetch and the
    command. *)
Definition picture_outcome (w : World) (url : string) (params : list string)
  : Outcome unit :=
  match http_content (env w) url with
  | None => Raise (ConnectionError url)
  | Some _ =>
      match shell (env w) (cwd (env w)) (img2txt_command w params) with
      | None => Raise (CommandError (img2txt_command w params))
      | Some _ => Return tt
      end
  end.

Definition returned {A} (o : Outcome A) : bool :=
  match o with
  | Return _ => true
  | Raise _ => false
  end.

Definition closing_text : string := "2024 1.26 [Fri] ROAD SHOW".

Definition destiny_texts : list string :=
  ["GUNNERY"; "UNITED"; "NUCLEAR"; "DUETRION"; "ADVANCED"; "MANEUVER";
   "        SYSTEM"].

Definition freedom_texts : list string :=
  ["GENERATION"; "UNRESTRICTED"; "NETWORK"; "DRIVE"; "ASSAULT"; "MODULE";
   "        COMPLEX"].

(** ** Sample data *)

Definition seed_a : ResourceNode :=
  mkNode "seed.shop.customers" Seed "raw" "customers" [("node_name", "customers")].
Definition seed_b : ResourceNode :=
  mkNode "seed.shop.orders" Seed "raw" "orders" [("node_name", "orders")].
Definition model_c : ResourceNode :=
  mkNode "model.shop.revenue" Model "mart" "revenue" [("node_name", "revenue")].

Definition customers : Table :=
  mkTable ["id"; "name"] [["1"; "ann"]; ["2"; "bob"]; ["3"; "cy"]].
Definition no_rows : Table := mkTable ["id"; "amount"] [].

Definition success_a : RunResult.t :=
  RunResult.mk Success "INSERT 3" (1 # 2)%Q seed_a (Some customers).
Definition success_b_empty : RunResult.t :=
  RunResult.mk Success "INSERT 0" (1 # 4)%Q seed_b (Some no_rows).
Definition error_b : RunResult.t :=
  RunResult.mk Error "ConnectionLost" (1 # 4)%Q seed_b None.
Definition skipped_b : RunResult.t :=
  RunResult.mk Skipped "" 0%Q seed_b None.

Definition quiet_env : Env :=
  mkEnv (fun i => 7 - i) (fun _ => Some "png") (fun _ _ => Some ("art", ""))
        (fun _ _ => None) "/project" "/tmp/tmpq1".
Definition world0 : World := mkWorld quiet_env [] false 0.

Definition no_flags : Args.t := Args.mk false false false.
Definition show_flag : Args.t := Args.mk false false true.
Definition destiny_flag : Args.t := Args.mk true false false.

Definition the_graph : Graph := mkGraph [seed_a; model_c; seed_b].
Definition the_manifest : Manifest := mkManifest [seed_a; model_c; seed_b].

Definition task_ready : SeedTask.t :=
  SeedTask.mk no_flags (Some the_manifest) (Some the_graph) None.
Definition task_without_graph : SeedTask.t :=
  SeedTask.mk no_flags (Some the_manifest) None None.
Definition task_showing : SeedTask.t :=
  SeedTask.mk show_flag (Some the_manifest) (Some the_graph) None.
Definition task_destiny : SeedTask.t :=
  SeedTask.mk destiny_flag (Some the_manifest) (Some the_graph) None.

Definition runner_a : SeedRunner.t := SeedRunner.mk seed_a 1 2.

Definition loaded_customers : Context :=
  mkContext (fun name => if String.eqb name "agate_table"
                         then Some (mkAgateResult customers) else None).

(** A context in which no result was stored. *)
Definition nothing_loaded : Context := mkContext (fun _ => None).

(** A run in which the orders fail to load and everything else succeeds. *)
Definition orders_fail (n : ResourceNode) : RunResult.t :=
  if String.eqb (alias n) "orders"
  then RunResult.mk Error "ConnectionLost" (1 # 4)%Q n None
  else RunResult.mk Success "INSERT 3" (1 # 2)%Q n (Some customers).

Definition fail_fast_flags : Flags.t := Flags.mk true.

(** A base result builder, standing for [ModelRunner._build_run_model_result]. *)
Definition plain_builder (model : ResourceNode) (_ : Context) : M SeedRunner.t RunResult.t :=
  ret (RunResult.mk Success "INSERT 3" (1 # 2)%Q model None).




Definition task_every_flag : SeedTask.t :=
  SeedTask.mk (Args.mk true true true) (Some the_manifest) (Some the_graph) None.

(** A stand-in for the inherited [get_node_representation]. *)
Definition dotted_name : M SeedRunner.t string :=
  self <- get_self ;;
  ret (schema (SeedRunner.node self) ++ "." ++ alias (SeedRunner.node self))%string.

(** * Properties *)

(** ** Selection *)

Lemma get_node_selector_ready (s : SeedTask.t) (w : World) (m : Manifest) (g : Graph) :
  SeedTask.manifest s = Some m -> SeedTask.graph s = Some g ->
  SeedTask.get_node_selector s w =
    (Return (ResourceTypeSelector.mk g m (SeedTask.previous_state s) [Seed]), s, w).
Proof.
  intros Hm Hg. unfold SeedTask.get_node_selector, bind, get_self.
  now rewrite Hm, Hg.
Qed.

(** C1.  [get_node_selector] raises the internal error saying that manifest
    and graph must be set exactly when the manifest or the graph is [None];
    it does so with the task and the world untouched, hence before any
    selector is built or any node looked at.  When both are set it raises
    nothing and returns the selector over them, restricted to Seed. *)
Theorem get_node_selector_precondition (s : SeedTask.t) (w : World) :
  (SeedTask.manifest s = None \/ SeedTask.graph s = None ->
   SeedTask.get_node_selector s w =
     (Raise (DbtInternalError
               "manifest and graph must be set to get perform node selection"),
      s, w))
  /\
  (forall m g,
      SeedTask.manifest s = Some m -> SeedTask.graph s = Some g ->
      SeedTask.get_node_selector s w =
        (Return (ResourceTypeSelector.mk g m (SeedTask.previous_state s) [Seed]),
         s, w)).
Proof.
  split.
  - unfold SeedTask.get_node_selector, bind, get_self, raise.
    intros [H | H]; rewrite H; [reflexivity |].
    now destruct (SeedTask.manifest s).
  - intros m g. apply get_node_selector_ready.
Qed.

Lemma get_node_selector_precondition_witness :
  SeedTask.get_node_selector task_without_graph world0 =
    (Raise (DbtInternalError
              "manifest and graph must be set to get perform node selection"),
     task_without_graph, world0)
  /\
  SeedTask.get_node_selector task_ready world0 =
    (Return (ResourceTypeSelector.mk the_graph the_manifest None [Seed]),
     task_ready, world0).
Proof.
  split.
  - apply (proj1 (get_node_selector_precondition task_without_graph world0)).
    right. reflexivity.
  - apply (proj2 (get_node_selector_precondition task_ready world0));
      reflexivity.
Defined.

Lemma Permutation_filter_compat {A} (f : A -> bool) (l l' : list A) :
  Permutation l l' -> Permutation (filter f l) (filter f l').
Proof.
  induction 1 as [| x l l' _ IH | x y l | l l' l'' _ IH1 _ IH2]; cbn.
  - constructor.
  - destruct (f x); auto.
  - destruct (f x), (f y); auto using perm_swap.
  - eapply perm_trans; eassumption.
Qed.

Lemma filter_all {A} (f : A -> bool) (l : list A) :
  Forall (fun x => f x = true) l -> filter f l = l.
Proof.
  induction 1 as [| x l Hx _ IH]; cbn; [reflexivity |].
  now rewrite Hx, IH.
Qed.

Lemma filter_none {A} (f : A -> bool) (l : list A) :
  Forall (fun x => f x = false) l -> filter f l = [].
Proof.
  induction 1 as [| x l Hx _ IH]; cbn; [reflexivity |].
  now rewrite Hx.
Qed.

Lemma NodeType_eqb_eq (a b : NodeType) : NodeType_eqb a b = true <-> a = b.
Proof. destruct a, b; cbn; split; congruence. Qed.

Lemma is_seed_spec (n : ResourceNode) : is_seed n = true <-> resource_type n = Seed.
Proof. apply NodeType_eqb_eq. Qed.

Lemma node_is_match_seed (sel : ResourceTypeSelector.t) (n : ResourceNode) :
  ResourceTypeSelector.resource_types sel = [Seed] ->
  ResourceTypeSelector.node_is_match sel n = is_seed n.
Proof.
  intros H. unfold ResourceTypeSelector.node_is_match, is_seed.
  rewrite H. cbn. apply orb_false_r.
Qed.

(** C2.  With manifest and graph set, the selector returned by
    [get_node_selector] selects exactly the Seed nodes of the graph, in
    graph order: a node is selected if and only if it is in the graph and
    its declared type is Seed, and when the graph holds the [N] nodes
    [seeds] of type Seed next to any nodes of other types, the selection is
    those [N] nodes. *)
Theorem seed_selector_selects_seeds (s : SeedTask.t) (w : World) (m : Manifest) (g : Graph) :
  SeedTask.manifest s = Some m -> SeedTask.graph s = Some g ->
  exists sel,
    SeedTask.get_node_selector s w = (Return sel, s, w) /\
    ResourceTypeSelector.select sel = filter is_seed (graph_nodes g) /\
    (forall n, In n (ResourceTypeSelector.select sel) <->
               In n (graph_nodes g) /\ resource_type n = Seed) /\
    (forall seeds others,
        Forall (fun n => resource_type n = Seed) seeds ->
        Forall (fun n => resource_type n <> Seed) others ->
        Permutation (graph_nodes g) (seeds ++ others) ->
        Permutation (ResourceTypeSelector.select sel) seeds /\
        List.length (ResourceTypeSelector.select sel) = List.length seeds /\
        forall n, In n others -> ~ In n (ResourceTypeSelector.select sel)).
Proof.
  intros Hm Hg.
  pose proof (get_node_selector_ready s w Hm Hg) as Hok.
  eexists. split; [exact Hok |].
  assert (Hsel : ResourceTypeSelector.select
                   (ResourceTypeSelector.mk g m (SeedTask.previous_state s) [Seed])
                 = filter is_seed (graph_nodes g)).
  { unfold ResourceTypeSelector.select. cbn.
    apply filter_ext. intros n. now apply node_is_match_seed. }
  rewrite Hsel. split; [reflexivity |]. split.
  - intros n. rewrite filter_In, is_seed_spec. reflexivity.
  - intros seeds others Hseeds Hothers Hperm.
    assert (Hfs : filter is_seed (seeds ++ others) = seeds).
    { rewrite filter_app, filter_all, filter_none, app_nil_r; trivial.
      - eapply Forall_impl; [| exact Hothers]. intros n Hn. cbn in Hn.
        destruct (is_seed n) eqn:E; [| reflexivity].
        apply is_seed_spec in E. contradiction.
      - eapply Forall_impl; [| exact Hseeds]. intros n Hn.
        now apply is_seed_spec. }
    assert (Hp : Permutation (filter is_seed (graph_nodes g)) seeds).
    { eapply perm_trans; [apply Permutation_filter_compat; exact Hperm |].
      rewrite Hfs. apply Permutation_refl. }
    split; [exact Hp |]. split; [now apply Permutation_length |].
    intros n Hin Hsel'. apply filter_In in Hsel'. destruct Hsel' as [_ Hs].
    apply is_seed_spec in Hs. rewrite Forall_forall in Hothers.
    now apply (Hothers n Hin).
Qed.

Lemma seed_selector_selects_seeds_witness :
  exists sel,
    SeedTask.get_node_selector task_ready world0 = (Return sel, task_ready, world0) /\
    ResourceTypeSelector.select sel = [seed_a; seed_b].
Proof.
  destruct (seed_selector_selects_seeds task_ready world0 (m := the_manifest)
              (g := the_graph) eq_refl eq_refl) as [sel [Hrun [Hsel _]]].
  exists sel. split; [exact Hrun | exact Hsel].
Defined.

(** ** The runner *)

(** C3.  [SeedRunner.compile] returns the runner's own node, whatever the
    manifest it is given; the runner and the world are left as they were,
    so nothing is produced besides the node and nothing is mutated. *)
Theorem compile_is_identity (manifest : Manifest) (s : SeedRunner.t) (w : World) :
  SeedRunner.compile manifest s w = (Return (SeedRunner.node s), s, w).
Proof. reflexivity. Qed.

Lemma NodeStatus_eqb_eq (a b : NodeStatus) : NodeStatus_eqb a b = true <-> a = b.
Proof. destruct a, b; cbn; split; congruence. Qed.

Lemma NodeStatus_eqb_neq (a b : NodeStatus) : NodeStatus_eqb a b = false <-> a <> b.
Proof. destruct a, b; cbn; split; congruence. Qed.

(** C6.  [print_result_line] fires one [LogSeedResult] event and does
    nothing else: the runner is unchanged and the world only gains that
    event.  The level of the event is ERROR if and only if the status of
    the result is Error, and INFO for every other status. *)
Theorem print_result_line_severity (result : RunResult.t) (s : SeedRunner.t) (w : World) :
  exists level,
    SeedRunner.print_result_line result s w =
      (Return tt, s,
       emit (Fired (LogSeedResult (status result) (message result)
                      (SeedRunner.node_index s) (SeedRunner.num_nodes s)
                      (execution_time result)
                      (schema (SeedRunner.node s))
                      (alias (RunResult.node result))
                      (node_info (RunResult.node result)))
                   (Some level) (text_only_mode w)) w)
    /\ (level = ERROR <-> status result = Error)
    /\ (level = INFO <-> status result <> Error).
Proof.
  unfold SeedRunner.print_result_line, bind, get_self, fire_event.
  destruct (status result) eqn:E; cbn;
    eexists; (split; [reflexivity |]); split; split; congruence.
Qed.

(** C7 (as amended).  For every model and every context that holds a
    result under the name "agate_table", [_build_run_model_result] returns
    what the inherited builder produced, with the table of that result
    attached as the payload; status, message, execution time and node are
    those of the inherited result, and the runner and the world are as the
    inherited builder left them.  A failure of the inherited builder is
    passed on unchanged.  In a context that holds no such result the
    builder raises the attribute error once the inherited builder has
    returned. *)
Theorem build_run_model_result_augments
  (base : ResourceNode -> Context -> M SeedRunner.t RunResult.t)
  (model : ResourceNode) (context : Context) (s : SeedRunner.t) (w : World) :
  (forall agate_result r s' w',
      load_result context "agate_table" = Some agate_result ->
      base model context s w = (Return r, s', w') ->
      exists r',
        SeedRunner._build_run_model_result base model context s w = (Return r', s', w') /\
        agate_table r' = Some (table agate_result) /\
        status r' = status r /\
        message r' = message r /\
        execution_time r' = execution_time r /\
        RunResult.node r' = RunResult.node r)
  /\
  (forall e s' w',
      base model context s w = (Raise e, s', w') ->
      SeedRunner._build_run_model_result base model context s w = (Raise e, s', w'))
  /\
  (forall r s' w',
      load_result context "agate_table" = None ->
      base model context s w = (Return r, s', w') ->
      SeedRunner._build_run_model_result base model context s w =
        (Raise (AttributeError "table"), s', w')).
Proof.
  unfold SeedRunner._build_run_model_result, bind, ret, raise. split; [| split].
  - intros agate_result r s' w' Hload H. rewrite H, Hload. eexists.
    split; [reflexivity |]. cbn. repeat split.
  - intros e s' w' H. now rewrite H.
  - intros r s' w' Hload H. now rewrite H, Hload.
Qed.

Lemma build_run_model_result_augments_witness :
  exists r',
    SeedRunner._build_run_model_result plain_builder seed_a loaded_customers
      runner_a world0 = (Return r', runner_a, world0) /\
    agate_table r' = Some customers /\
    status r' = Success.
Proof.
  destruct (proj1 (build_run_model_result_augments plain_builder seed_a
                     loaded_customers runner_a world0)
              (mkAgateResult customers) _ _ _ eq_refl eq_refl)
    as [r' [Hrun [Htab [Hst _]]]].
  exists r'. repeat split; assumption.
Defined.

(** C7 (as stated) fails in a context that holds no result under the name
    "agate_table": the inherited builder returns its result, and the
    builder then raises instead of attaching a payload. *)
Lemma build_run_model_result_needs_loaded_table :
  ~ attaches_payload plain_builder seed_a nothing_loaded runner_a world0.
Proof.
  intros H. destruct (H _ _ _ eq_refl) as [r' [tbl [Hrun _]]].
  discriminate Hrun.
Qed.

(** ** The task's policies *)

Lemma run_selected_continue (flags : Flags.t) (run_node : ResourceNode -> RunResult.t)
                            (nodes : list ResourceNode) (s : SeedTask.t) (w : World) :
  Flags.fail_fast flags = false ->
  run_selected flags run_node nodes s w = (Return (map run_node nodes), s, w).
Proof.
  intros Hoff. unfold run_selected.
  induction nodes as [| n rest IH]; cbn [schedule map]; [reflexivity |].
  rewrite Hoff.
  destruct (NodeStatus_eqb (status (run_node n)) Error);
    unfold bind, SeedTask.raise_on_first_error, ret in *; now rewrite IH.
Qed.

Lemma run_selected_one_result_each (flags : Flags.t)
                                   (run_node : ResourceNode -> RunResult.t)
                                   (nodes : list ResourceNode) (s : SeedTask.t) (w : World) :
  exists results,
    run_selected flags run_node nodes s w = (Return results, s, w) /\
    List.length results = List.length nodes.
Proof.
  unfold run_selected.
  induction nodes as [| n rest IH]; cbn [schedule].
  - exists []. now split.
  - destruct IH as [results [Hrun Hlen]].
    destruct (NodeStatus_eqb (status (run_node n)) Error).
    + destruct (Flags.fail_fast flags).
      * eexists. split; [reflexivity |]. cbn. now rewrite length_map.
      * unfold bind, SeedTask.raise_on_first_error, ret in *. rewrite Hrun.
        eexists. split; [reflexivity |]. cbn. now rewrite Hlen.
    + unfold bind, ret in *. rewrite Hrun.
      eexists. split; [reflexivity |]. cbn. now rewrite Hlen.
Qed.

Lemma run_selected_fail_fast (run_node : ResourceNode -> RunResult.t)
                             (before after : list ResourceNode) (n : ResourceNode)
                             (s : SeedTask.t) (w : World) :
  (forall m, In m before -> status (run_node m) <> Error) ->
  status (run_node n) = Error ->
  run_selected (Flags.mk true) run_node (before ++ n :: after) s w =
    (Return (map run_node before ++ run_node n :: map skipped_result after), s, w).
Proof.
  intros Hbefore Hn. unfold run_selected.
  induction before as [| m rest IH]; cbn [app schedule map].
  - rewrite Hn. reflexivity.
  - assert (Hm : NodeStatus_eqb (status (run_node m)) Error = false).
    { apply NodeStatus_eqb_neq, Hbefore. now left. }
    rewrite Hm. unfold bind, ret in *. rewrite IH; [reflexivity |].
    intros x Hx. apply Hbefore. now right.
Qed.

(** A task whose policy is to raise on the first error makes the first
    failing node the failure of the batch: the policy is what the run
    asks when the flag is off. *)
Lemma schedule_raising_policy {Self} (run_node : ResourceNode -> RunResult.t)
                              (n : ResourceNode) (rest : list ResourceNode)
                              (s : Self) (w : World) :
  status (run_node n) = Error ->
  schedule Flags.default (ret true) run_node (n :: rest) s w =
    (Raise (ExecutionError (message (run_node n))), s, w).
Proof.
  intros Hn. cbn [schedule]. now rewrite Hn.
Qed.

(** C4.  [raise_on_first_error] answers [False] for every seed task and
    changes nothing, so that with the fail-fast flag at its default, off,
    every selected node is attempted, one result per node in order,
    whatever the earlier results were.  The policy is a switch and not a
    constant: with the flag on, the nodes behind the first Error are not
    attempted and are recorded as Skipped.  Either way every node yields
    one result. *)
Theorem fail_fast_policy (run_node : ResourceNode -> RunResult.t)
                         (nodes : list ResourceNode) (s : SeedTask.t) (w : World) :
  SeedTask.raise_on_first_error s w = (Return false, s, w) /\
  Flags.fail_fast Flags.default = false /\
  run_selected Flags.default run_node nodes s w = (Return (map run_node nodes), s, w) /\
  (forall flags, exists results,
      run_selected flags run_node nodes s w = (Return results, s, w) /\
      List.length results = List.length nodes) /\
  (forall before n after,
      nodes = before ++ n :: after ->
      (forall m, In m before -> status (run_node m) <> Error) ->
      status (run_node n) = Error ->
      run_selected (Flags.mk true) run_node nodes s w =
        (Return (map run_node before ++ run_node n :: map skipped_result after), s, w)).
Proof.
  split; [reflexivity |]. split; [reflexivity |]. split; [| split].
  - now apply run_selected_continue.
  - intros flags. apply run_selected_one_result_each.
  - intros before n after -> Hbefore Hn. now apply run_selected_fail_fast.
Qed.

Lemma fail_fast_policy_witness :
  run_selected Flags.default orders_fail [seed_a; seed_b; seed_a] task_ready world0 =
    (Return [orders_fail seed_a; orders_fail seed_b; orders_fail seed_a],
     task_ready, world0)
  /\
  run_selected fail_fast_flags orders_fail [seed_a; seed_b; seed_a] task_ready world0 =
    (Return [orders_fail seed_a; orders_fail seed_b; skipped_result seed_a],
     task_ready, world0).
Proof.
  destruct (fail_fast_policy orders_fail [seed_a; seed_b; seed_a] task_ready world0)
    as [_ [_ [Hdefault [_ Hswitch]]]].
  split; [exact Hdefault |].
  apply (Hswitch [seed_a] seed_b [seed_a]).
  - reflexivity.
  - intros m [<- | []]. discriminate.
  - reflexivity.
Defined.

(** C5.  [defer_to_manifest] returns nothing and has no effect: for every
    adapter and every set of selected uids the task (graph, manifest,
    previous state, arguments) and the world are exactly as before, so no
    previous state is consulted, and the selection made afterwards is the
    selection that would have been made without it. *)
Theorem defer_to_manifest_is_noop (adapter : Adapter) (selected_uids : list string)
                                  (s : SeedTask.t) (w : World) :
  SeedTask.defer_to_manifest adapter selected_uids s w = (Return tt, s, w) /\
  (SeedTask.defer_to_manifest adapter selected_uids ;; SeedTask.get_node_selector) s w
    = SeedTask.get_node_selector s w.
Proof.
  split.
  - reflexivity.
  - unfold bind at 1. reflexivity.
Qed.

(** ** The sampling hook *)

Lemma insert_by_key_perm (x : nat * Row) (l : list (nat * Row)) :
  Permutation (insert_by_key x l) (x :: l).
Proof.
  induction l as [| y rest IH]; cbn.
  - apply Permutation_refl.
  - destruct (fst x <=? fst y).
    + apply Permutation_refl.
    + eapply perm_trans; [apply perm_skip, IH | apply perm_swap].
Qed.

Lemma sort_by_key_perm (l : list (nat * Row)) : Permutation (sort_by_key l) l.
Proof.
  induction l as [| x rest IH]; cbn.
  - constructor.
  - eapply perm_trans; [apply insert_by_key_perm | now apply perm_skip].
Qed.

(** Drawing one random key per row returns the rows paired with keys and
    only moves the cursor of the random stream. *)
Lemma keyed_random {Self} (rs : list Row) (s : Self) :
  forall w, exists ks,
    keyed (fun _ => random_random) rs s w =
      (Return ks, s,
       mkWorld (env w) (trace w) (text_only_mode w) (rng_cursor w + List.length rs)) /\
    map snd ks = rs.
Proof.
  induction rs as [| r rest IH]; intros w; cbn.
  - exists []. split; [| reflexivity].
    unfold ret. rewrite Nat.add_0_r. now destruct w.
  - destruct (IH (advance_rng w)) as [ks [Hks Hmap]].
    unfold bind. rewrite Hks. cbn.
    exists ((random_stream (env w) (rng_cursor w), r) :: ks). split.
    + unfold ret. now rewrite Nat.add_succ_r.
    + cbn. now rewrite Hmap.
Qed.

Lemma order_by_random {Self} (tbl : Table) (s : Self) (w : World) :
  exists shuffled w',
    order_by (fun _ => random_random) tbl s w =
      (Return (mkTable (column_names tbl) shuffled), s, w') /\
    Permutation shuffled (rows tbl) /\
    trace w' = trace w /\
    text_only_mode w' = text_only_mode w /\
    env w' = env w.
Proof.
  destruct (keyed_random (rows tbl) s w) as [ks [Hks Hmap]].
  unfold order_by, bind. rewrite Hks.
  eexists; eexists. split; [reflexivity |]. cbn.
  repeat split. rewrite <- Hmap.
  apply Permutation_map, sort_by_key_perm.
Qed.

Lemma show_table_missing (r : RunResult.t) (s : SeedTask.t) (w : World) :
  agate_table r = None ->
  SeedTask.show_table r s w = (Raise (AttributeError "agate_table"), s, w).
Proof.
  intros H. unfold SeedTask.show_table. now rewrite H.
Qed.

Lemma show_table_renders (r : RunResult.t) (tbl : Table) (s : SeedTask.t) (w : World) :
  agate_table r = Some tbl ->
  exists w' shown,
    SeedTask.show_table r s w = (Return tt, s, w') /\
    trace w' = trace w ++ rendering (text_only_mode w) r (column_names tbl) shown /\
    sample_of r (column_names tbl) shown /\
    text_only_mode w' = text_only_mode w /\
    env w' = env w.
Proof.
  intros Hpay. unfold SeedTask.show_table. rewrite Hpay.
  destruct (order_by_random tbl s w) as [shuffled [w1 [Hsort [Hperm [Htr [Hto Henv]]]]]].
  unfold bind at 1. rewrite Hsort. cbv zeta.
  unfold bind, with_TextOnly, fire_event, print_table, effect, emit, set_text_only.
  cbn [trace text_only_mode env rng_cursor column_names rows limit].
  eexists; exists (firstn 10 shuffled). split.
  - rewrite map_id. reflexivity.
  - cbn [trace text_only_mode env]. rewrite Htr, Hto, Henv. repeat split.
    + unfold rendering, sample_header. rewrite <- !app_assoc. reflexivity.
    + exists tbl, shuffled. repeat split; trivial.
      rewrite length_firstn, (Permutation_length Hperm). apply Nat.min_comm.
Qed.

Lemma show_tables_cons (r : RunResult.t) (rest : list RunResult.t)
                       (s : SeedTask.t) (w : World) :
  SeedTask.show_tables (r :: rest) s w =
    if not_error r
    then match SeedTask.show_table r s w with
         | (Return _, s', w') => SeedTask.show_tables rest s' w'
         | (Raise e, s', w') => (Raise e, s', w')
         end
    else SeedTask.show_tables rest s w.
Proof.
  unfold SeedTask.show_tables, not_error. cbn. unfold bind at 1.
  now destruct (negb (NodeStatus_eqb (status r) Error)).
Qed.

Lemma not_error_spec (r : RunResult.t) : not_error r = true <-> status r <> Error.
Proof.
  unfold not_error. rewrite negb_true_iff. apply NodeStatus_eqb_neq.
Qed.

Lemma payloads_attached_cons (r : RunResult.t) (rest : list RunResult.t) :
  payloads_attached (r :: rest) <->
  (status r <> Error -> agate_table r <> None) /\ payloads_attached rest.
Proof.
  unfold payloads_attached. split.
  - intros H. split; [apply H; now left | intros x Hx; apply H; now right].
  - intros [Hr Hrest] x [<- | Hx]; [exact Hr | now apply Hrest].
Qed.

Lemma show_tables_samples (results : list RunResult.t) (s : SeedTask.t) :
  payloads_attached results ->
  forall w, samples_every_non_error results s w.
Proof.
  unfold samples_every_non_error.
  induction results as [| r rest IH]; intros Hpay w.
  - exists w, []. cbn. rewrite app_nil_r. repeat split. constructor.
  - apply payloads_attached_cons in Hpay. destruct Hpay as [Hr Hrest].
    rewrite show_tables_cons. unfold sampled. cbn [filter].
    destruct (not_error r) eqn:Hne.
    + apply not_error_spec in Hne.
      destruct (agate_table r) as [tbl |] eqn:Htbl; [| now elim (Hr Hne)].
      destruct (show_table_renders r s w Htbl)
        as [w1 [shown [Hrun [Htr [Hsample [Hto _]]]]]].
      rewrite Hrun.
      destruct (IH Hrest w1) as [w' [effects [Hrest_run [Htr' Hrend]]]].
      exists w', (rendering (text_only_mode w) r (column_names tbl) shown ++ effects).
      split; [exact Hrest_run |]. split.
      * now rewrite Htr', Htr, <- app_assoc.
      * constructor; [exact Hsample |]. now rewrite <- Hto.
    + exact (IH Hrest w).
Qed.

(** What the hook does on any list of results: it returns when every
    result that is not an Error carries a payload, and raises otherwise. *)
Lemma show_tables_outcome (results : list RunResult.t) (s : SeedTask.t) :
  forall w,
    (payloads_attached results /\
     exists w', SeedTask.show_tables results s w = (Return tt, s, w'))
    \/
    (~ payloads_attached results /\
     exists w', SeedTask.show_tables results s w =
                  (Raise (AttributeError "agate_table"), s, w')).
Proof.
  induction results as [| r rest IH]; intros w.
  - left. split; [intros x [] | now exists w].
  - rewrite show_tables_cons. destruct (not_error r) eqn:Hne.
    + apply not_error_spec in Hne.
      destruct (agate_table r) as [tbl |] eqn:Htbl.
      * destruct (show_table_renders r s w Htbl) as [w1 [shown [Hrun _]]].
        rewrite Hrun.
        destruct (IH w1) as [[Hp Hret] | [Hp Hraise]].
        -- left. split; [| exact Hret].
           apply payloads_attached_cons. split; [| exact Hp].
           intros _. congruence.
        -- right. split; [| exact Hraise].
           intros H. apply payloads_attached_cons in H. now apply Hp.
      * right. rewrite (show_table_missing r s w Htbl). split; [| now exists w].
        intros H. apply payloads_attached_cons in H. now apply (proj1 H Hne).
    + apply not_true_iff_false in Hne. rewrite not_error_spec in Hne.
      destruct (IH w) as [[Hp Hret] | [Hp Hraise]].
      * left. split; [| exact Hret].
        apply payloads_attached_cons. split; [| exact Hp].
        intros Hs. now elim Hne.
      * right. split; [| exact Hraise].
        intros H. apply payloads_attached_cons in H. now apply Hp.
Qed.

(** C8.  The hook at a list that holds a Skipped result, which was never
    executed and carries no payload, in front of a Success result with its
    payload: the hook raises the attribute error at the Skipped result,
    having emitted nothing, and the Success result behind it is never
    sampled; so the hook does not sample every result that is not an
    Error.  With an Error result in the place of the Skipped one, equally
    without payload, the hook passes it over and samples the Success
    result. *)
Theorem sampling_hook_fails_on_skipped_result :
  SeedTask.show_tables [skipped_b; success_a] task_showing world0 =
    (Raise (AttributeError "agate_table"), task_showing, world0) /\
  ~ samples_every_non_error [skipped_b; success_a] task_showing world0 /\
  samples_every_non_error [error_b; success_a] task_showing world0.
Proof.
  assert (Hrun : SeedTask.show_tables [skipped_b; success_a] task_showing world0 =
                   (Raise (AttributeError "agate_table"), task_showing, world0)).
  { rewrite show_tables_cons. reflexivity. }
  split; [exact Hrun |]. split.
  - intros [w' [effects [Hret _]]]. rewrite Hrun in Hret. discriminate Hret.
  - apply show_tables_samples.
    intros r [<- | [<- | []]] Hne; cbn in *; congruence.
Qed.

(** C10.  [show_tables] returns if and only if every result whose status
    is not Error carries the table payload.  When some such result lacks
    it, the hook raises the attribute error on [agate_table] instead of
    skipping that result.  Only results with status Error are exempt: such
    a result is passed over whatever it carries. *)
Theorem sampling_hook_needs_payloads (results : list RunResult.t)
                                     (s : SeedTask.t) (w : World) :
  ((exists w', SeedTask.show_tables results s w = (Return tt, s, w')) <->
   payloads_attached results)
  /\
  (~ payloads_attached results ->
   exists w', SeedTask.show_tables results s w =
                (Raise (AttributeError "agate_table"), s, w'))
  /\
  (forall r rest,
      status r = Error ->
      SeedTask.show_tables (r :: rest) s w = SeedTask.show_tables rest s w).
Proof.
  split; [| split].
  - destruct (show_tables_outcome results s w) as [[Hp Hret] | [Hp [w1 Hraise]]].
    + split; trivial.
    + split; [| intros H; now elim Hp].
      intros [w' Hret]. rewrite Hret in Hraise. discriminate.
  - intros Hn.
    destruct (show_tables_outcome results s w) as [[Hp _] | [_ Hraise]];
      [now elim Hn | exact Hraise].
  - intros r rest Hst. rewrite show_tables_cons.
    unfold not_error. rewrite Hst. reflexivity.
Qed.

Lemma sampling_hook_needs_payloads_witness :
  (exists w', SeedTask.show_tables [success_a; skipped_b] task_showing world0 =
                (Raise (AttributeError "agate_table"), task_showing, w'))
  /\
  SeedTask.show_tables [error_b; success_a] task_showing world0 =
    SeedTask.show_tables [success_a] task_showing world0.
Proof.
  destruct (sampling_hook_needs_payloads [success_a; skipped_b] task_showing world0)
    as [_ [Hraise _]].
  destruct (sampling_hook_needs_payloads [error_b; success_a] task_showing world0)
    as [_ [_ Hskip]].
  split.
  - apply Hraise. intros H.
    apply (H skipped_b); cbn; [tauto | discriminate | reflexivity].
  - apply Hskip. reflexivity.
Defined.

(** ** The end of the run *)

Create HintDb summary_free.

Lemma summary_free_ret {Self A} (a : A) : summary_free (@ret Self A a).
Proof. intros s w. reflexivity. Qed.

Lemma summary_free_bind {Self A B} (c : M Self A) (k : A -> M Self B) :
  summary_free c -> (forall a, summary_free (k a)) -> summary_free (bind c k).
Proof.
  intros Hc Hk s w. unfold bind. specialize (Hc s w).
  destruct (c s w) as [[[a | e] s'] w']; cbn in Hc |- *.
  - now rewrite Hk.
  - exact Hc.
Qed.

Lemma summary_free_effect {Self} (x : Effect) :
  is_summary x = false -> summary_free (@effect Self x).
Proof.
  intros Hx s w. unfold effect, emit, summaries. cbn.
  rewrite filter_app. cbn. rewrite Hx. apply app_nil_r.
Qed.

Lemma summary_free_for_each {Self A} (xs : list A) (body : A -> M Self unit) :
  (forall x, summary_free (body x)) -> summary_free (for_each xs body).
Proof.
  intros Hbody. induction xs as [| x rest IH]; cbn.
  - apply summary_free_ret.
  - apply summary_free_bind; [apply Hbody | intros _; exact IH].
Qed.

Lemma summary_free_print_end {Self} (text e : string) :
  summary_free (@print_end Self text e).
Proof. now apply summary_free_effect. Qed.

Lemma summary_free_print {Self} (text : string) : summary_free (@print Self text).
Proof. apply summary_free_print_end. Qed.

Lemma summary_free_raise {Self A} (e : Exception) : summary_free (@raise Self A e).
Proof. intros s w. reflexivity. Qed.

Lemma summary_free_time_sleep {Self} (seconds : Q) :
  summary_free (@time_sleep Self seconds).
Proof.
  unfold time_sleep. destruct (too_long seconds); [apply summary_free_raise |].
  destruct (Qle_bool 0 seconds);
    [now apply summary_free_effect | apply summary_free_raise].
Qed.

Lemma summary_free_fire_event {Self} (e : Event) (level : option EventLevel) :
  (forall b, is_summary (Fired e level b) = false) ->
  summary_free (@fire_event Self e level).
Proof.
  intros He s w. unfold fire_event, emit, summaries. cbn [snd trace].
  rewrite filter_app. cbn [filter]. rewrite He. apply app_nil_r.
Qed.

Lemma summary_free_popen_communicate {Self} (dir : string) (cmd : list string) :
  summary_free (@popen_communicate Self dir cmd).
Proof.
  intros s w. unfold popen_communicate.
  destruct (shell (env w) dir cmd) as [[out err] |];
    [| destruct (exit_report (env w) dir cmd) as [[[code out] err] |]]; cbn;
    unfold summaries; rewrite filter_app; apply app_nil_r.
Qed.

Lemma summary_free_requests_get_content {Self} (url : string) :
  summary_free (@requests_get_content Self url).
Proof.
  intros s w. unfold requests_get_content.
  destruct (http_content (env w) url); cbn;
    unfold summaries; rewrite filter_app; apply app_nil_r.
Qed.

Lemma summary_free_run_cmd {Self} (dir : string) (cmd : list string) :
  summary_free (@run_cmd Self dir cmd).
Proof.
  unfold run_cmd.
  apply summary_free_bind; [now apply summary_free_fire_event | intros _].
  apply summary_free_bind; [apply summary_free_popen_communicate | intros proc].
  apply summary_free_bind; [now apply summary_free_fire_event | intros _].
  apply summary_free_bind; [now apply summary_free_fire_event | intros _].
  destruct (negb (returncode proc =? 0)%Z); [| apply summary_free_ret].
  apply summary_free_bind; [now apply summary_free_fire_event | intros _].
  apply summary_free_raise.
Qed.

Lemma summary_free_os_getcwd {Self} : summary_free (@os_getcwd Self).
Proof. intros s w. reflexivity. Qed.

Lemma summary_free_with_NamedTemporaryFile {Self A} (body : string -> M Self A) :
  (forall name, summary_free (body name)) ->
  summary_free (with_NamedTemporaryFile body).
Proof.
  intros Hbody s w. unfold with_NamedTemporaryFile.
  specialize (Hbody (temp_name (env w)) s (emit (TempFileCreated (temp_name (env w))) w)).
  destruct (body (temp_name (env w)) s (emit (TempFileCreated (temp_name (env w))) w))
    as [[o s'] w'].
  cbn [snd] in *. unfold emit, summaries in *. cbn [trace] in *.
  rewrite filter_app in *. cbn [filter is_summary] in *.
  rewrite app_nil_r in *. exact Hbody.
Qed.

Lemma summary_free_fp_write {Self} (name content : string) :
  summary_free (@fp_write Self name content).
Proof. now apply summary_free_effect. Qed.

#[local] Hint Resolve summary_free_ret summary_free_print_end summary_free_print
  summary_free_time_sleep summary_free_requests_get_content summary_free_run_cmd
  summary_free_os_getcwd summary_free_fp_write : summary_free.

Ltac summary_free_step :=
  lazymatch goal with
  | |- summary_free (bind _ _) => apply summary_free_bind; [| intro]
  | |- summary_free (for_each _ _) => apply summary_free_for_each; intro
  | |- summary_free (with_NamedTemporaryFile _) =>
      apply summary_free_with_NamedTemporaryFile; intro
  | |- summary_free _ => solve [auto with summary_free]
  end.

Lemma summary_free_text_typing_animation (texts : list string) (color : nat) (d : Q) :
  summary_free (SeedTask.text_typing_animation texts color d).
Proof.
  unfold SeedTask.text_typing_animation. repeat summary_free_step.
Qed.

Lemma summary_free_draw_asciiart (url : string) (params : list string) :
  summary_free (SeedTask.draw_asciiart url params).
Proof.
  unfold SeedTask.draw_asciiart. repeat summary_free_step.
Qed.

#[local] Hint Resolve summary_free_text_typing_animation summary_free_draw_asciiart
  : summary_free.


Lemma summary_free_freedom : summary_free SeedTask.freedom.
Proof.
  unfold SeedTask.freedom. repeat summary_free_step.
Qed.

Lemma summary_free_with_TextOnly {Self A} (body : M Self A) :
  summary_free body -> summary_free (with_TextOnly body).
Proof.
  intros Hbody s w. unfold with_TextOnly. specialize (Hbody s (set_text_only true w)).
  destruct (body s (set_text_only true w)) as [[o s'] w']. exact Hbody.
Qed.

Lemma summary_free_random_random {Self} : summary_free (@random_random Self).
Proof. intros s w. reflexivity. Qed.

Lemma summary_free_keyed {Self} (key : Row -> M Self nat) (rs : list Row) :
  (forall r, summary_free (key r)) -> summary_free (keyed key rs).
Proof.
  intros Hkey. induction rs as [| r rest IH]; cbn [keyed].
  - apply summary_free_ret.
  - apply summary_free_bind; [apply Hkey | intros k].
    apply summary_free_bind; [exact IH | intros ks; apply summary_free_ret].
Qed.

Lemma summary_free_show_table (r : RunResult.t) : summary_free (SeedTask.show_table r).
Proof.
  unfold SeedTask.show_table. destruct (agate_table r) as [tbl |];
    [| apply summary_free_raise].
  apply summary_free_bind.
  - unfold order_by. apply summary_free_bind; [| intros; apply summary_free_ret].
    apply summary_free_keyed. intros _. apply summary_free_random_random.
  - intros rand_table. cbv zeta.
    repeat (apply summary_free_bind; [| intros _]);
      try apply summary_free_with_TextOnly;
      try (apply summary_free_fire_event; reflexivity).
    unfold print_table. now apply summary_free_effect.
Qed.

Lemma summary_free_show_tables (results : list RunResult.t) :
  summary_free (SeedTask.show_tables results).
Proof.
  unfold SeedTask.show_tables. apply summary_free_for_each. intros r.
  destruct (negb (NodeStatus_eqb (status r) Error));
    [apply summary_free_show_table | apply summary_free_ret].
Qed.

(** * Further properties *)

(** ** Computations that only write *)

Lemma extend_nil (w : World) : extend [] w = w.
Proof. destruct w. unfold extend. cbn. now rewrite app_nil_r. Qed.

Lemma extend_app (o1 o2 : list Effect) (w : World) :
  extend o2 (extend o1 w) = extend (o1 ++ o2) w.
Proof. unfold extend. cbn. now rewrite app_assoc. Qed.

Lemma emit_extend (x : Effect) (w : World) : emit x w = extend [x] w.
Proof. reflexivity. Qed.

Lemma writes_ret {Self A} (a : A) : writes (@ret Self A a) a [].
Proof. intros s w. unfold ret. now rewrite extend_nil. Qed.

Lemma writes_effect {Self} (x : Effect) : writes (@effect Self x) tt [x].
Proof. intros s w. reflexivity. Qed.

Lemma writes_bind {Self A B} (c : M Self A) (k : A -> M Self B)
                  (a : A) (b : B) (o1 o2 : list Effect) :
  writes c a o1 -> writes (k a) b o2 -> writes (bind c k) b (o1 ++ o2).
Proof.
  intros Hc Hk s w. unfold bind. rewrite Hc, Hk. now rewrite extend_app.
Qed.

Lemma writes_for_each {Self A} (xs : list A) (body : A -> M Self unit)
                      (out : A -> list Effect) :
  (forall x, writes (body x) tt (out x)) ->
  writes (for_each xs body) tt (flat_map out xs).
Proof.
  intros Hbody. induction xs as [| x rest IH]; cbn [for_each flat_map].
  - apply writes_ret.
  - eapply writes_bind; [apply Hbody | exact IH].
Qed.

(** ** The start line *)

(** X1.  [before_execute] fires exactly one [LogStartLine] event, at the
    event's own level: its description is "seed file " followed by the
    node representation, and it carries the runner's index, the batch size
    and the node info.  When the node representation cannot be computed,
    the failure is passed on and no event is fired. *)
Theorem before_execute_start_line (representation : M SeedRunner.t string)
                                  (s : SeedRunner.t) (w : World) :
  (forall d s' w',
      representation s w = (Return d, s', w') ->
      SeedRunner.before_execute representation s w =
        (Return tt, s',
         emit (Fired (LogStartLine ("seed file " ++ d)%string
                        (SeedRunner.node_index s') (SeedRunner.num_nodes s')
                        (node_info (SeedRunner.node s')))
                     None (text_only_mode w')) w'))
  /\
  (forall e s' w',
      representation s w = (Raise e, s', w') ->
      SeedRunner.before_execute representation s w = (Raise e, s', w')).
Proof.
  unfold SeedRunner.before_execute, SeedRunner.describe_node. split.
  - intros d s' w' H. unfold bind at 1. unfold bind at 1. now rewrite H.
  - intros e s' w' H. unfold bind at 1. unfold bind at 1. now rewrite H.
Qed.

Lemma before_execute_start_line_witness :
  SeedRunner.before_execute dotted_name runner_a world0 =
    (Return tt, runner_a,
     emit (Fired (LogStartLine "seed file raw.customers" 1 2
                    [("node_name", "customers")]) None false) world0).
Proof.
  exact (proj1 (before_execute_start_line dotted_name runner_a world0)
           "raw.customers"%string runner_a world0 eq_refl).
Defined.

(** ** The typing animation *)

Lemma substring_prefix_length (s : string) :
  forall n, n <= String.length s -> String.length (substring 0 n s) = n.
Proof.
  induction s as [| c rest IH]; intros [| n] Hn; cbn in *; try reflexivity.
  - lia.
  - f_equal. apply IH. lia.
Qed.

Lemma substring_whole (s : string) : substring 0 (String.length s) s = s.
Proof.
  induction s as [| c rest IH]; cbn; [reflexivity | now rewrite IH].
Qed.

Lemma substring_is_prefix (s : string) :
  forall n, prefix (substring 0 n s) s = true.
Proof.
  induction s as [| c rest IH]; intros [| n]; cbn; try reflexivity.
  destruct (ascii_dec c c) as [_ | Hc]; [apply IH | now elim Hc].
Qed.

(** X2.  The frames typed for a text are its non-empty prefixes in
    growing order: there are as many frames as the text has characters,
    frame [i] is the prefix of length [i + 1], and the last frame is the
    whole text; an empty text has no frame. *)
Theorem prefixes_frames (s : string) :
  List.length (SeedTask.prefixes s) = String.length s /\
  (forall i, i < String.length s ->
             exists t, nth_error (SeedTask.prefixes s) i = Some t /\
                       String.length t = i + 1 /\
                       prefix t s = true) /\
  (s <> ""%string -> last (SeedTask.prefixes s) ""%string = s) /\
  (s = ""%string -> SeedTask.prefixes s = []).
Proof.
  unfold SeedTask.prefixes. repeat split.
  - now rewrite length_map, length_seq.
  - intros i Hi. exists (substring 0 (i + 1) s). repeat split.
    + rewrite nth_error_map, nth_error_seq.
      apply Nat.ltb_lt in Hi. now rewrite Hi.
    + apply substring_prefix_length. lia.
    + apply substring_is_prefix.
  - intros Hs. destruct (String.length s) as [| k] eqn:Hlen.
    + destruct s; [now elim Hs | discriminate].
    + rewrite seq_S, map_app. cbn [map]. rewrite last_last.
      replace (0 + k + 1) with (String.length s) by lia.
      apply substring_whole.
  - intros ->. reflexivity.
Qed.

Lemma prefixes_frames_witness :
  last (SeedTask.prefixes "SEED") ""%string = "SEED"%string /\
  exists t, nth_error (SeedTask.prefixes "SEED") 1 = Some t /\
            String.length t = 2 /\ prefix t "SEED" = true.
Proof.
  destruct (prefixes_frames "SEED") as [_ [Hnth [Hlast _]]]. split.
  - apply Hlast. discriminate.
  - apply (Hnth 1). cbn. lia.
Defined.

Lemma sleeps_app (a b : list Effect) : sleeps (a ++ b) = sleeps a ++ sleeps b.
Proof. apply flat_map_app. Qed.

Lemma sleeps_frames {A} (frame : A -> list Effect) (d : Q) (xs : list A) :
  (forall x, sleeps (frame x) = [d]) ->
  sleeps (flat_map frame xs) = repeat d (List.length xs).
Proof.
  intros Hframe. induction xs as [| x rest IH]; cbn [flat_map]; [reflexivity |].
  rewrite sleeps_app, Hframe, IH. reflexivity.
Qed.

Lemma sleeps_lines (line : string -> list Effect) (d : Q) (texts : list string) :
  (forall s, sleeps (line s) = repeat d (String.length s)) ->
  sleeps (flat_map line texts) = repeat d (total_chars texts).
Proof.
  intros Hline. induction texts as [| s rest IH]; cbn [flat_map total_chars fold_right];
    [reflexivity |].
  rewrite sleeps_app, Hline, IH. symmetry. apply repeat_app.
Qed.

Lemma sleeps_silent (xs : list string) (line : string -> list Effect) :
  (forall s, sleeps (line s) = []) -> sleeps (flat_map line xs) = [].
Proof.
  intros Hline. induction xs as [| x rest IH]; cbn [flat_map]; [reflexivity |].
  now rewrite sleeps_app, Hline, IH.
Qed.

Lemma prefixes_length (s : string) :
  List.length (SeedTask.prefixes s) = String.length s.
Proof. unfold SeedTask.prefixes. now rewrite length_map, length_seq. Qed.

Lemma fits_clock (d : Q) :
  (- sleep_limit < d)%Q -> (d < sleep_limit)%Q -> too_long d = false.
Proof.
  intros Hlow Hhigh. unfold too_long. apply orb_false_iff. split.
  - destruct (Qle_bool sleep_limit d) eqn:E; [| reflexivity].
    apply Qle_bool_iff in E. lra.
  - destruct (Qle_bool d (- sleep_limit)) eqn:E; [| reflexivity].
    apply Qle_bool_iff in E. lra.
Qed.

Lemma sleep_limit_positive : (0 < sleep_limit)%Q.
Proof. reflexivity. Qed.

Lemma writes_time_sleep {Self} (d : Q) :
  (0 <= d)%Q -> (d < sleep_limit)%Q -> writes (@time_sleep Self d) tt [Slept d].
Proof.
  intros Hd Hfit s w. unfold time_sleep.
  pose proof sleep_limit_positive as Hpos.
  rewrite fits_clock; [| lra | exact Hfit].
  apply Qle_bool_iff in Hd. now rewrite Hd.
Qed.

Lemma fails_time_sleep {Self} (d : Q) :
  (d < 0)%Q -> (- sleep_limit < d)%Q -> fails (@time_sleep Self d) negative_sleep [].
Proof.
  intros Hd Hfit s w. unfold time_sleep, raise.
  pose proof sleep_limit_positive as Hpos.
  rewrite fits_clock; [| exact Hfit | lra].
  destruct (Qle_bool 0 d) eqn:E.
  - apply Qle_bool_iff in E. lra.
  - now rewrite extend_nil.
Qed.

Lemma fails_first {Self A B} (c : M Self A) (k : A -> M Self B)
                  (e : Exception) (out : list Effect) :
  fails c e out -> fails (bind c k) e out.
Proof.
  intros Hc s w. unfold bind. now rewrite Hc.
Qed.

Lemma fails_after {Self A B} (c : M Self A) (k : A -> M Self B) (a : A)
                  (e : Exception) (o1 o2 : list Effect) :
  writes c a o1 -> fails (k a) e o2 -> fails (bind c k) e (o1 ++ o2).
Proof.
  intros Hc Hk s w. unfold bind. rewrite Hc, Hk. now rewrite extend_app.
Qed.

Ltac writes_step :=
  cbv beta;
  lazymatch goal with
  | |- writes (bind _ _) _ _ => eapply writes_bind
  | |- writes (for_each _ _) _ _ => apply writes_for_each; intro
  | |- writes (effect _) _ _ => apply writes_effect
  | |- writes (time_sleep _) _ _ => apply writes_time_sleep; lra
  | |- writes (ret _) _ _ => apply writes_ret
  end.

(** What the animation does with an interval that is not negative, for
    every list of texts: it returns, leaves the task alone, writes to the
    terminal and waits, and nothing else; it waits once per character,
    then once more five times as long. *)
Lemma text_typing_animation_writes (texts : list string) (color : nat) (d : Q) :
  (0 <= d)%Q -> (d * 5 < sleep_limit)%Q ->
  exists out,
    writes (SeedTask.text_typing_animation texts color d) tt out /\
    terminal_only out /\
    sleeps out = repeat d (total_chars texts) ++ [(d * 5)%Q].
Proof.
  intros Hd Hfit.
  unfold SeedTask.text_typing_animation, print, print_end.
  eexists. split; [| split].
  - repeat writes_step.
  - unfold terminal_only.
    repeat first [ apply Forall_app; split
                 | apply Forall_flat_map, Forall_forall; intros ? _
                 | apply Forall_cons; [reflexivity |]
                 | apply Forall_nil ].
  - rewrite !sleeps_app.
    rewrite (sleeps_silent texts); [| reflexivity].
    rewrite (sleeps_lines _ d); [reflexivity |].
    intros s. rewrite sleeps_app, (@sleeps_frames _ _ d); [| reflexivity].
    cbn. now rewrite app_nil_r, prefixes_length.
Qed.

(** One line of the animation under a negative interval: an empty text is
    passed with its line break, any other text fails at its first frame. *)
Lemma typed_line_refused (color : nat) (d : Q) (text : string) :
  (d < 0)%Q -> (- sleep_limit < d)%Q ->
  let line : M SeedTask.t unit :=
    for_each (SeedTask.prefixes text) (fun t =>
      print_end (cr ++ esc ++ "[3" ++ str_of_nat color ++ "m" ++ t)%string "" ;;
      time_sleep d) ;;
    print "" in
  exists out,
    terminal_only out /\ sleeps out = [] /\
    (writes line tt out \/ fails line negative_sleep out).
Proof.
  intros Hd Hfit line. subst line. destruct (SeedTask.prefixes text) as [| t rest].
  - exists [Stdout ("" ++ nl)%string]. split; [| split]; [| | left].
    + apply Forall_cons; [reflexivity | apply Forall_nil].
    + reflexivity.
    + unfold print, print_end. cbn [for_each].
      change [Stdout ("" ++ nl)%string] with ([] ++ [Stdout ("" ++ nl)%string]).
      eapply writes_bind; [apply writes_ret | apply writes_effect].
  - exists [Stdout ((cr ++ esc ++ "[3" ++ str_of_nat color ++ "m" ++ t) ++ "")%string].
    split; [| split]; [| | right].
    + apply Forall_cons; [reflexivity | apply Forall_nil].
    + reflexivity.
    + cbn [for_each]. apply fails_first, fails_first. unfold print_end.
      match goal with
      | |- fails _ _ [?x] => change [x] with ([x] ++ [])
      end.
      eapply fails_after; [apply writes_effect | now apply fails_time_sleep].
Qed.

Lemma typed_lines_refused (color : nat) (d : Q) (texts : list string) :
  (d < 0)%Q -> (- sleep_limit < d)%Q ->
  let lines : M SeedTask.t unit :=
    for_each texts (fun s =>
      for_each (SeedTask.prefixes s) (fun t =>
        print_end (cr ++ esc ++ "[3" ++ str_of_nat color ++ "m" ++ t)%string "" ;;
        time_sleep d) ;;
      print "") in
  exists out,
    terminal_only out /\ sleeps out = [] /\
    (writes lines tt out \/ fails lines negative_sleep out).
Proof.
  intros Hd Hfit lines. subst lines. induction texts as [| text rest IH]; cbn [for_each].
  - exists []. split; [apply Forall_nil |]. split; [reflexivity |]. left.
    apply writes_ret.
  - destruct (@typed_line_refused color d text Hd Hfit) as [o1 [Ht1 [Hs1 [Hw1 | Hf1]]]].
    + destruct IH as [o2 [Ht2 [Hs2 Hrest]]].
      exists (o1 ++ o2). split; [now apply Forall_app |].
      split; [now rewrite sleeps_app, Hs1, Hs2 |].
      destruct Hrest as [Hw2 | Hf2].
      * left. eapply writes_bind; [exact Hw1 | exact Hw2].
      * right. eapply fails_after; [exact Hw1 | exact Hf2].
    + exists o1. split; [exact Ht1 |]. split; [exact Hs1 |]. right.
      now apply fails_first.
Qed.

(** What the animation does with a negative interval: [time.sleep]
    refuses the first pause, so the animation raises, having written to
    the terminal only and not having paused at all. *)
Lemma text_typing_animation_refused (texts : list string) (color : nat) (d : Q) :
  (d < 0)%Q -> (- sleep_limit < d * 5)%Q ->
  exists out,
    fails (SeedTask.text_typing_animation texts color d) negative_sleep out /\
    terminal_only out /\
    sleeps out = [].
Proof.
  intros Hd Hfit.
  assert (Hfit1 : (- sleep_limit < d)%Q) by lra.
  destruct (@typed_lines_refused color d texts Hd Hfit1)
    as [lines [Hterm [Hsleeps Hlines]]].
  unfold SeedTask.text_typing_animation.
  destruct Hlines as [Hw | Hf].
  - eexists. split; [| split].
    1: { unfold print at 1. unfold print_end at 1.
      eapply fails_after; [apply writes_effect |].
      eapply fails_after;
        [apply writes_for_each; intro; unfold print, print_end; apply writes_effect |].
      eapply fails_after; [unfold print_end; apply writes_effect |].
      eapply fails_after; [exact Hw |].
      eapply fails_after; [unfold print, print_end; apply writes_effect |].
      apply fails_first. apply fails_time_sleep; lra. }
    + unfold terminal_only in *.
      repeat first [ apply Forall_app; split
                   | exact Hterm
                   | apply Forall_flat_map, Forall_forall; intros ? _
                   | apply Forall_cons; [reflexivity |]
                   | apply Forall_nil ].
    + rewrite !sleeps_app, Hsleeps, (sleeps_silent texts); reflexivity.
  - eexists. split; [| split].
    1: { unfold print at 1. unfold print_end at 1.
      eapply fails_after; [apply writes_effect |].
      eapply fails_after;
        [apply writes_for_each; intro; unfold print, print_end; apply writes_effect |].
      eapply fails_after; [unfold print_end; apply writes_effect |].
      apply fails_first. exact Hf. }
    + unfold terminal_only in *.
      repeat first [ apply Forall_app; split
                   | exact Hterm
                   | apply Forall_flat_map, Forall_forall; intros ? _
                   | apply Forall_cons; [reflexivity |]
                   | apply Forall_nil ].
    + rewrite !sleeps_app, Hsleeps, (sleeps_silent texts); reflexivity.
Qed.

(** X3.  With an interval that is not negative and whose fivefold fits
    the clock, [text_typing_animation] returns for every list of texts and
    every colour and leaves the task as it was; all it does is write to
    the terminal and wait (no event, no table, no network, no file, no
    command), and it waits once per character of the texts and once more
    at the end.  With a negative interval (whose fivefold fits the clock)
    the first pause is refused: the animation raises the value error,
    having written to the terminal only and not having waited. *)
Theorem text_typing_animation_terminal (texts : list string) (color : nat) (d : Q)
                                       (s : SeedTask.t) (w : World) :
  ((0 <= d)%Q -> (d * 5 < sleep_limit)%Q ->
   exists out,
     SeedTask.text_typing_animation texts color d s w = (Return tt, s, extend out w) /\
     terminal_only out /\
     List.length (sleeps out) = total_chars texts + 1)
  /\
  ((d < 0)%Q -> (- sleep_limit < d * 5)%Q ->
   exists out,
     SeedTask.text_typing_animation texts color d s w =
       (Raise negative_sleep, s, extend out w) /\
     terminal_only out /\
     sleeps out = []).
Proof.
  split.
  - intros Hd Hfit.
    destruct (@text_typing_animation_writes texts color d Hd Hfit)
      as [out [Hrun [Hterm Hsleeps]]].
    exists out. split; [apply Hrun |]. split; [exact Hterm |].
    now rewrite Hsleeps, length_app, repeat_length.
  - intros Hd Hfit.
    destruct (@text_typing_animation_refused texts color d Hd Hfit)
      as [out [Hrun [Hterm Hsleeps]]].
    exists out. split; [apply Hrun |]. now split.
Qed.

Lemma text_typing_animation_terminal_witness :
  (exists out,
      SeedTask.text_typing_animation ["SEED"; ""]%string 1 (8 # 100)%Q task_ready world0 =
        (Return tt, task_ready, extend out world0) /\
      terminal_only out /\
      List.length (sleeps out) = 5)
  /\
  (exists out,
      SeedTask.text_typing_animation ["SEED"; ""]%string 1 (- (1 # 2))%Q task_ready world0 =
        (Raise negative_sleep, task_ready, extend out world0) /\
      terminal_only out /\
      sleeps out = []).
Proof.
  split.
  - apply (proj1 (text_typing_animation_terminal ["SEED"; ""]%string 1 (8 # 100)%Q
                    task_ready world0)); reflexivity || (unfold sleep_limit; lra).
  - apply (proj2 (text_typing_animation_terminal ["SEED"; ""]%string 1 (- (1 # 2))%Q
                    task_ready world0)); reflexivity || (unfold sleep_limit; lra).
Defined.

(** ** The picture *)

Lemma draw_asciiart_cases (url : string) (params : list string)
                          (s : SeedTask.t) (w : World) :
  (http_content (env w) url = None ->
   SeedTask.draw_asciiart url params s w =
     (Raise (ConnectionError url), s, extend [Fetched url] w))
  /\
  (forall content,
      http_content (env w) url = Some content ->
      shell (env w) (cwd (env w)) (img2txt_command w params) = None ->
      exit_report (env w) (cwd (env w)) (img2txt_command w params) = None ->
      SeedTask.draw_asciiart url params s w =
        (Raise (CommandError (img2txt_command w params)), s,
         extend [Fetched url;
                 TempFileCreated (temp_name (env w));
                 FileWrite (temp_name (env w)) content;
                 Fired (SystemExecutingCmd (img2txt_command w params)) None
                       (text_only_mode w);
                 CommandRun (cwd (env w)) (img2txt_command w params);
                 FileClosed (temp_name (env w))] w))
  /\
  (forall content code out err,
      http_content (env w) url = Some content ->
      shell (env w) (cwd (env w)) (img2txt_command w params) = None ->
      exit_report (env w) (cwd (env w)) (img2txt_command w params) =
        Some (code, out, err) ->
      SeedTask.draw_asciiart url params s w =
        (Raise (CommandError (img2txt_command w params)), s,
         extend [Fetched url;
                 TempFileCreated (temp_name (env w));
                 FileWrite (temp_name (env w)) content;
                 Fired (SystemExecutingCmd (img2txt_command w params)) None
                       (text_only_mode w);
                 CommandRun (cwd (env w)) (img2txt_command w params);
                 Fired (SystemStdOut out) None (text_only_mode w);
                 Fired (SystemStdErr err) None (text_only_mode w);
                 Fired (SystemReportReturnCode (Z.pos code)) None (text_only_mode w);
                 FileClosed (temp_name (env w))] w))
  /\
  (forall content out err,
      http_content (env w) url = Some content ->
      shell (env w) (cwd (env w)) (img2txt_command w params) = Some (out, err) ->
      SeedTask.draw_asciiart url params s w =
        (Return tt, s,
         extend [Fetched url;
                 TempFileCreated (temp_name (env w));
                 FileWrite (temp_name (env w)) content;
                 Fired (SystemExecutingCmd (img2txt_command w params)) None
                       (text_only_mode w);
                 CommandRun (cwd (env w)) (img2txt_command w params);
                 Fired (SystemStdOut out) None (text_only_mode w);
                 Fired (SystemStdErr err) None (text_only_mode w);
                 Stdout (out ++ nl);
                 Stdout ((nl ++ nl) ++ nl);
                 Stdout (("元画像：" ++ url) ++ nl);
                 Stdout ((nl ++ nl) ++ nl);
                 FileClosed (temp_name (env w))]%string w)).
Proof.
  cbv beta delta [SeedTask.draw_asciiart img2txt_command bind requests_get_content
                    with_NamedTemporaryFile fp_write os_getcwd run_cmd popen_communicate
                    fire_event print print_end effect ret raise emit extend].
  cbn [env trace text_only_mode rng_cursor].
  split; [| split; [| split]].
  - intros H. now rewrite H.
  - intros content Hget Hcmd Hrep. rewrite Hget.
    cbn [env trace text_only_mode rng_cursor]. rewrite Hcmd, Hrep.
    cbn [env trace text_only_mode rng_cursor]. now rewrite <- !app_assoc.
  - intros content code out err Hget Hcmd Hrep. rewrite Hget.
    cbn [env trace text_only_mode rng_cursor]. rewrite Hcmd, Hrep.
    cbn [env trace text_only_mode rng_cursor returncode proc_out proc_err
           Z.eqb negb].
    now rewrite <- !app_assoc.
  - intros content out err Hget Hcmd. rewrite Hget.
    cbn [env trace text_only_mode rng_cursor]. rewrite Hcmd.
    cbn [env trace text_only_mode rng_cursor returncode proc_out proc_err
           Z.eqb negb fst snd].
    now rewrite <- !app_assoc.
Qed.



Lemma terminal_not_task_output (out : list Effect) :
  terminal_only out -> filter is_task_output out = [].
Proof.
  induction 1 as [| x rest Hx _ IH]; cbn; [reflexivity |].
  destruct x; cbn in Hx |- *; try discriminate; exact IH.
Qed.

Lemma summaries_app (a b : list Effect) :
  summaries (a ++ b) = summaries a ++ summaries b.
Proof. apply filter_app. Qed.

Lemma terminal_not_summary (out : list Effect) :
  terminal_only out -> summaries out = [].
Proof.
  induction 1 as [| x rest Hx _ IH]; cbn; [reflexivity |].
  destruct x; cbn in Hx |- *; try discriminate; exact IH.
Qed.

(** Drawing a picture ends as the world answers; it sends nothing of the
    task's own through dbt's output, emits no summary and does not pause. *)
Lemma draw_asciiart_run (url : string) (params : list string)
                        (s : SeedTask.t) (w : World) :
  exists out,
    SeedTask.draw_asciiart url params s w =
      (picture_outcome w url params, s, extend out w) /\
    filter is_task_output out = [] /\
    summaries out = [] /\
    sleeps out = [].
Proof.
  destruct (draw_asciiart_cases url params s w) as [Hoff [Hcmd [Hbad Hok]]].
  unfold picture_outcome.
  destruct (http_content (env w) url) as [content |] eqn:Hget.
  - destruct (shell (env w) (cwd (env w)) (img2txt_command w params))
      as [[out err] |] eqn:Hsh.
    + eexists. split; [apply (Hok content out err); reflexivity |]. now repeat split.
    + destruct (exit_report (env w) (cwd (env w)) (img2txt_command w params))
        as [[[code out] err] |] eqn:Hrep.
      * eexists. split; [apply (Hbad content code out err); reflexivity |].
        now repeat split.
      * eexists. split; [apply (Hcmd content); reflexivity |]. now repeat split.
  - eexists. split; [now apply Hoff |]. now repeat split.
Qed.

Lemma default_draw_interval_fits :
  (0 <= SeedTask.default_draw_interval)%Q /\
  (SeedTask.default_draw_interval * 5 < sleep_limit)%Q.
Proof. split; [discriminate | reflexivity]. Qed.

Lemma destiny_run (s : SeedTask.t) (w : World) :
  exists out,
    SeedTask.destiny s w =
      (picture_outcome w destiny_url ["-W"; "152"]%string, s, extend out w) /\
    filter is_task_output out = [] /\
    summaries out = [] /\
    List.length (sleeps out) = total_chars destiny_texts + 1.
Proof.
  destruct (@text_typing_animation_writes destiny_texts 1 SeedTask.default_draw_interval
              (proj1 default_draw_interval_fits) (proj2 default_draw_interval_fits))
    as [anim [Hanim [Hterm Hsleeps]]].
  destruct (draw_asciiart_run destiny_url ["-W"; "152"]%string s (extend anim w))
    as [pic [Hpic [Hquiet [Hnosum Hnosleep]]]].
  exists (anim ++ pic). split; [| split; [| split]].
  - unfold SeedTask.destiny, bind.
    change (SeedTask.text_typing_animation _ 1 SeedTask.default_draw_interval s w)
      with (SeedTask.text_typing_animation destiny_texts 1
              SeedTask.default_draw_interval s w).
    rewrite Hanim. fold destiny_url. rewrite Hpic, extend_app. reflexivity.
  - now rewrite filter_app, (terminal_not_task_output Hterm), Hquiet.
  - now rewrite summaries_app, (terminal_not_summary Hterm), Hnosum.
  - rewrite sleeps_app, Hnosleep, app_nil_r, Hsleeps, length_app, repeat_length.
    reflexivity.
Qed.

Lemma freedom_run (s : SeedTask.t) (w : World) :
  exists out,
    SeedTask.freedom s w =
      (picture_outcome w freedom_url ["-W"; "152"]%string, s, extend out w) /\
    filter is_task_output out = [] /\
    summaries out = [] /\
    List.length (sleeps out) =
      if returned (picture_outcome w freedom_url ["-W"; "152"]%string)
      then (total_chars freedom_texts + 1) + (String.length closing_text + 1)
      else total_chars freedom_texts + 1.
Proof.
  destruct (@text_typing_animation_writes freedom_texts 1 SeedTask.default_draw_interval
              (proj1 default_draw_interval_fits) (proj2 default_draw_interval_fits))
    as [anim [Hanim [Hterm Hsleeps]]].
  destruct (draw_asciiart_run freedom_url ["-W"; "152"]%string s (extend anim w))
    as [pic [Hpic [Hquiet [Hnosum Hnosleep]]]].
  destruct (@text_typing_animation_writes [closing_text] 3 SeedTask.default_draw_interval
              (proj1 default_draw_interval_fits) (proj2 default_draw_interval_fits))
    as [closing [Hclosing [Hterm' Hsleeps']]].
  change (picture_outcome (extend anim w) freedom_url ["-W"; "152"]%string)
    with (picture_outcome w freedom_url ["-W"; "152"]%string) in Hpic.
  assert (Hfirst : SeedTask.text_typing_animation freedom_texts 1
                     SeedTask.default_draw_interval s w = (Return tt, s, extend anim w))
    by apply Hanim.
  assert (Hrun : SeedTask.freedom s w =
                 match picture_outcome w freedom_url ["-W"; "152"]%string with
                 | Return _ => SeedTask.text_typing_animation [closing_text] 3
                                 SeedTask.default_draw_interval s
                                 (extend (anim ++ pic) w)
                 | Raise e => (Raise e, s, extend (anim ++ pic) w)
                 end).
  { unfold SeedTask.freedom, bind. fold freedom_texts freedom_url closing_text.
    rewrite Hfirst, Hpic, extend_app.
    now destruct (picture_outcome w freedom_url ["-W"; "152"]%string). }
  destruct (picture_outcome w freedom_url ["-W"; "152"]%string) as [[] | e] eqn:Ho.
  - exists ((anim ++ pic) ++ closing). split; [| split; [| split]].
    + rewrite Hrun, Hclosing, extend_app. reflexivity.
    + now rewrite !filter_app, (terminal_not_task_output Hterm), Hquiet,
        (terminal_not_task_output Hterm').
    + now rewrite !summaries_app, (terminal_not_summary Hterm), Hnosum,
        (terminal_not_summary Hterm').
    + cbn [returned]. rewrite !sleeps_app, Hnosleep, app_nil_r, Hsleeps, Hsleeps'.
      rewrite !length_app, !repeat_length. cbn [total_chars fold_right List.length].
      lia.
  - exists (anim ++ pic). split; [| split; [| split]].
    + exact Hrun.
    + now rewrite filter_app, (terminal_not_task_output Hterm), Hquiet.
    + now rewrite summaries_app, (terminal_not_summary Hterm), Hnosum.
    + cbn [returned]. rewrite sleeps_app, Hnosleep, app_nil_r, Hsleeps.
      rewrite length_app, repeat_length. reflexivity.
Qed.

(** ** The end of the run under the flags *)

Lemma task_end_messages_destiny (results : list RunResult.t) (s : SeedTask.t) (w : World) :
  Args.destiny (SeedTask.args s) = true ->
  SeedTask.task_end_messages results s w = SeedTask.destiny s w.
Proof.
  intros H. unfold SeedTask.task_end_messages, bind, get_self. now rewrite H.
Qed.

Lemma task_end_messages_freedom (results : list RunResult.t) (s : SeedTask.t) (w : World) :
  Args.destiny (SeedTask.args s) = false ->
  Args.freedom (SeedTask.args s) = true ->
  SeedTask.task_end_messages results s w = SeedTask.freedom s w.
Proof.
  intros Hd Hf. unfold SeedTask.task_end_messages, bind, get_self. now rewrite Hd, Hf.
Qed.




(** The run behind the counterexample: the step returns normally, the
    image is fetched and converted, and the trace holds no summary. *)
Example destiny_run_has_no_summary :
  let '(outcome, s', w') := SeedTask.task_end_messages [success_a] task_destiny world0 in
  outcome = Return tt /\ s' = task_destiny /\
  existsb is_summary (trace w') = false /\
  In (CommandRun "/project" ["img2txt"; "/tmp/tmpq1"; "-W"; "152"]%string) (trace w').
Proof.
  vm_compute. repeat split. auto 200.
Qed.





(** X8.  With [args.destiny] or [args.freedom] set, the end-of-run step
    does not look at the results and sends nothing of its own through
    dbt's output, also when [args.show] is set: no table is printed, and
    no event is fired other than those by which [run_cmd] reports the
    img2txt command. *)
Theorem end_of_run_flags_ignore_results (results results' : list RunResult.t)
                                        (s : SeedTask.t) (w : World) :
  Args.destiny (SeedTask.args s) = true \/ Args.freedom (SeedTask.args s) = true ->
  SeedTask.task_end_messages results s w = SeedTask.task_end_messages results' s w /\
  filter is_task_output (trace (snd (SeedTask.task_end_messages results s w))) =
    filter is_task_output (trace w).
Proof.
  intros Hflag.
  destruct (Args.destiny (SeedTask.args s)) eqn:Hd.
  - rewrite !(task_end_messages_destiny _ s w Hd). split; [reflexivity |].
    destruct (destiny_run s w) as [out [Hrun [Hquiet _]]].
    rewrite Hrun. cbn. now rewrite filter_app, Hquiet, app_nil_r.
  - destruct Hflag as [Hflag | Hf]; [discriminate |].
    rewrite !(task_end_messages_freedom _ s w Hd Hf). split; [reflexivity |].
    destruct (freedom_run s w) as [out [Hrun [Hquiet _]]].
    rewrite Hrun. cbn. now rewrite filter_app, Hquiet, app_nil_r.
Qed.

Lemma end_of_run_flags_ignore_results_witness :
  SeedTask.task_end_messages [success_a; skipped_b] task_every_flag world0 =
    SeedTask.task_end_messages [] task_every_flag world0 /\
  filter is_task_output
    (trace (snd (SeedTask.task_end_messages [success_a; skipped_b] task_every_flag world0)))
    = [].
Proof.
  apply (end_of_run_flags_ignore_results [success_a; skipped_b] [] task_every_flag world0).
  left. reflexivity.
Defined.

(** ** More on the sampling hook *)

Lemma for_each_app {Self A} (l1 l2 : list A) (body : A -> M Self unit) :
  forall s w,
    for_each (l1 ++ l2) body s w = (for_each l1 body ;; for_each l2 body) s w.
Proof.
  induction l1 as [| x rest IH]; intros s w; cbn [app for_each].
  - reflexivity.
  - unfold bind. destruct (body x s w) as [[[[] | e] s'] w'].
    + rewrite IH. reflexivity.
    + reflexivity.
Qed.

(** X9.  Sampling a list of results is sampling its first part and then
    its second part: the hook on [l1 ++ l2] is the hook on [l1] followed,
    when that returns, by the hook on [l2], and a failure in [l1] is the
    failure of the whole. *)
Theorem show_tables_app (l1 l2 : list RunResult.t) (s : SeedTask.t) (w : World) :
  SeedTask.show_tables (l1 ++ l2) s w =
    match SeedTask.show_tables l1 s w with
    | (Return _, s', w') => SeedTask.show_tables l2 s' w'
    | (Raise e, s', w') => (Raise e, s', w')
    end.
Proof.
  unfold SeedTask.show_tables. now rewrite for_each_app.
Qed.

Lemma show_tables_app_run (l1 l2 : list RunResult.t) (s : SeedTask.t) (w w1 : World) :
  SeedTask.show_tables l1 s w = (Return tt, s, w1) ->
  SeedTask.show_tables (l1 ++ l2) s w = SeedTask.show_tables l2 s w1.
Proof.
  intros H. unfold SeedTask.show_tables in *. rewrite for_each_app.
  unfold bind at 1. now rewrite H.
Qed.

(** X10.  What the hook has rendered is not taken back when it fails: on
    a list whose first result without payload (and not an Error) comes
    after results that carry theirs, the hook raises the attribute error
    after having emitted the samples of the results before it, and
    nothing of the results after it. *)
Theorem show_tables_partial_output (before after : list RunResult.t) (r : RunResult.t)
                                   (s : SeedTask.t) (w : World) :
  payloads_attached before ->
  status r <> Error ->
  agate_table r = None ->
  exists w' effects,
    SeedTask.show_tables (before ++ r :: after) s w =
      (Raise (AttributeError "agate_table"), s, w') /\
    trace w' = trace w ++ effects /\
    renderings (text_only_mode w) (sampled before) effects.
Proof.
  intros Hpay Hne Hnone.
  destruct (show_tables_samples s Hpay w) as [w1 [effects [Hrun [Htr Hrend]]]].
  exists w1, effects. split; [| now split].
  rewrite (@show_tables_app_run before (r :: after) s w w1 Hrun).
  rewrite show_tables_cons.
  apply not_error_spec in Hne. rewrite Hne.
  now rewrite (show_table_missing r s w1 Hnone).
Qed.

Lemma show_tables_partial_output_witness :
  exists w' effects,
    SeedTask.show_tables ([success_a] ++ skipped_b :: [success_b_empty])
      task_showing world0 =
      (Raise (AttributeError "agate_table"), task_showing, w') /\
    trace w' = trace world0 ++ effects /\
    renderings false (sampled [success_a]) effects.
Proof.
  apply (@show_tables_partial_output [success_a] [success_b_empty] skipped_b
           task_showing world0).
  - intros x [<- | []] _. discriminate.
  - discriminate.
  - reflexivity.
Defined.

Lemma renderings_nil_inv (flag : bool) (results : list RunResult.t) :
  renderings flag results [] -> results = [].
Proof.
  intros H. inversion H. reflexivity.
Qed.

Lemma sampled_nil (results : list RunResult.t) :
  sampled results = [] <-> (forall r, In r results -> status r = Error).
Proof.
  unfold sampled. induction results as [| r rest IH]; cbn.
  - split; [intros _ x [] | reflexivity].
  - destruct (not_error r) eqn:Hne.
    + split; [discriminate |]. intros H.
      apply not_error_spec in Hne. elim Hne. apply H. now left.
    + rewrite IH. apply not_true_iff_false in Hne. rewrite not_error_spec in Hne.
      split.
      * intros H x [<- | Hx]; [| now apply H].
        destruct (status r); try reflexivity; elim Hne; discriminate.
      * intros H x Hx. apply H. now right.
Qed.

(** X11.  The hook does nothing at all exactly when every result is an
    Error (in particular on the empty list): it then returns with the
    world as it was, and in every other case it either raises or has
    emitted something. *)
Theorem show_tables_silent_iff (results : list RunResult.t) (s : SeedTask.t) (w : World) :
  SeedTask.show_tables results s w = (Return tt, s, w) <->
  (forall r, In r results -> status r = Error).
Proof.
  split.
  - intros Hrun. apply sampled_nil.
    destruct (show_tables_outcome results s w) as [[Hpay _] | [_ [w1 Hraise]]].
    + destruct (show_tables_samples s Hpay w) as [w' [effects [Hrun' [Htr Hrend]]]].
      rewrite Hrun in Hrun'. inversion Hrun'; subst w'.
      assert (Heff : effects = []).
      { apply (app_inv_head (trace w)). now rewrite app_nil_r. }
      rewrite Heff in Hrend. now apply renderings_nil_inv in Hrend.
    + rewrite Hrun in Hraise. discriminate.
  - induction results as [| r rest IH]; intros Hall.
    + reflexivity.
    + rewrite show_tables_cons.
      assert (Hr : not_error r = false).
      { unfold not_error. rewrite (Hall r); [reflexivity | now left]. }
      rewrite Hr. apply IH. intros x Hx. apply Hall. now right.
Qed.

Lemma show_tables_silent_iff_witness :
  SeedTask.show_tables [error_b; error_b] task_showing world0 =
    (Return tt, task_showing, world0).
Proof.
  apply (proj2 (show_tables_silent_iff [error_b; error_b] task_showing world0)).
  intros r [<- | [<- | []]]; reflexivity.
Defined.

(** X12.  With [args.show] set and neither [args.destiny] nor
    [args.freedom], a result that is not an Error and has no payload makes
    the whole end-of-run step fail with the attribute error, and the run
    summary is never emitted. *)
Theorem end_of_run_summary_lost (results : list RunResult.t) (s : SeedTask.t) (w : World) :
  Args.destiny (SeedTask.args s) = false ->
  Args.freedom (SeedTask.args s) = false ->
  Args.show (SeedTask.args s) = true ->
  ~ payloads_attached results ->
  exists w',
    SeedTask.task_end_messages results s w =
      (Raise (AttributeError "agate_table"), s, w') /\
    summaries (trace w') = summaries (trace w).
Proof.
  intros Hd Hf Hshow Hmissing.
  destruct (show_tables_outcome results s w) as [[Hpay _] | [_ [w' Hraise]]];
    [now elim Hmissing |].
  exists w'. split.
  - unfold SeedTask.task_end_messages, bind, get_self.
    now rewrite Hd, Hf, Hshow, Hraise.
  - pose proof (summary_free_show_tables results s w) as Hfree.
    now rewrite Hraise in Hfree.
Qed.

Lemma end_of_run_summary_lost_witness :
  exists w',
    SeedTask.task_end_messages [success_a; skipped_b] task_showing world0 =
      (Raise (AttributeError "agate_table"), task_showing, w') /\
    summaries (trace w') = summaries (trace world0).
Proof.
  apply (@end_of_run_summary_lost [success_a; skipped_b] task_showing world0);
    try reflexivity.
  intros H. apply (H skipped_b); cbn; [tauto | discriminate | reflexivity].
Defined.

Lemma string_length_app (a b : string) :
  String.length (a ++ b) = String.length a + String.length b.
Proof.
  induction a as [| c rest IH]; cbn; [reflexivity | now rewrite IH].
Qed.

Lemma str_repeat_dash_length (n : nat) : String.length (str_repeat "-" n) = n.
Proof.
  induction n as [| n IH]; cbn; [reflexivity | now rewrite IH].
Qed.

Lemma str_repeat_dash_get (n : nat) :
  forall i c, get i (str_repeat "-" n) = Some c -> c = "-"%char.
Proof.
  induction n as [| n IH]; intros i c; cbn.
  - destruct i; discriminate.
  - destruct i as [| i]; [intros H; now inversion H | apply IH].
Qed.

(** X13.  In a rendered sample the line under the header is made of
    dashes only and is exactly as long as the header, that is 25
    characters more than schema and alias together; the blank lines around
    the sample are fired in text-only mode, and the mode in force before
    is in force again afterwards. *)
Theorem show_table_header_rule (r : RunResult.t) (tbl : Table)
                               (s : SeedTask.t) (w : World) :
  agate_table r = Some tbl ->
  exists w' shown rule,
    SeedTask.show_table r s w = (Return tt, s, w') /\
    trace w' = trace w ++
      [ Fired (Formatting "") None true;
        Fired (SeedHeader (sample_header r)) None (text_only_mode w);
        Fired (Formatting rule) None (text_only_mode w);
        TablePrinted (column_names tbl) shown;
        Fired (Formatting "") None true ] /\
    String.length rule = String.length (sample_header r) /\
    String.length rule =
      25 + String.length (schema (RunResult.node r))
         + String.length (alias (RunResult.node r)) /\
    (forall i c, get i rule = Some c -> c = "-"%char) /\
    text_only_mode w' = text_only_mode w.
Proof.
  intros Hpay.
  destruct (show_table_renders r s w Hpay) as [w' [shown [Hrun [Htr [_ [Hmode _]]]]]].
  exists w', shown, (str_repeat "-" (String.length (sample_header r))).
  split; [exact Hrun |]. split; [exact Htr |].
  rewrite str_repeat_dash_length. split; [reflexivity |]. split.
  - unfold sample_header. rewrite !string_length_app. cbn. lia.
  - split; [apply str_repeat_dash_get | exact Hmode].
Qed.

Lemma show_table_header_rule_witness :
  exists w' shown rule,
    SeedTask.show_table success_a task_showing world0 = (Return tt, task_showing, w') /\
    trace w' = trace world0 ++
      [ Fired (Formatting "") None true;
        Fired (SeedHeader "Random sample of table: raw.customers") None false;
        Fired (Formatting rule) None false;
        TablePrinted ["id"; "name"]%string shown;
        Fired (Formatting "") None true ] /\
    String.length rule = 37.
Proof.
  destruct (@show_table_header_rule success_a customers task_showing world0 eq_refl)
    as [w' [shown [rule [Hrun [Htr [Hlen _]]]]]].
  exists w', shown, rule. repeat split; assumption.
Defined.

(** X14.  The rows of a sample are rows of the payload, none shown more
    often than the payload holds it: together with the rows left out they
    make up the payload.  A payload of at most ten rows is shown in full,
    in some order, and the rows left out of a larger one number [M - 10]. *)
Theorem show_table_sample_rows (r : RunResult.t) (tbl : Table)
                               (s : SeedTask.t) (w : World) :
  agate_table r = Some tbl ->
  exists w' shown hidden,
    SeedTask.show_table r s w = (Return tt, s, w') /\
    trace w' = trace w ++ rendering (text_only_mode w) r (column_names tbl) shown /\
    Permutation (shown ++ hidden) (rows tbl) /\
    List.length hidden = List.length (rows tbl) - 10 /\
    (List.length (rows tbl) <= 10 -> Permutation shown (rows tbl)).
Proof.
  intros Hpay.
  destruct (show_table_renders r s w Hpay)
    as [w' [shown [Hrun [Htr [[tbl' [shuffled [Htbl [_ [Hperm [Hshown _]]]]]] _]]]]].
  assert (tbl' = tbl) by congruence. subst tbl'.
  exists w', shown, (skipn 10 shuffled).
  split; [exact Hrun |]. split; [exact Htr |]. subst shown. split; [| split].
  - now rewrite firstn_skipn.
  - now rewrite length_skipn, (Permutation_length Hperm).
  - intros Hsmall. rewrite firstn_all2; [exact Hperm |].
    now rewrite (Permutation_length Hperm).
Qed.

Lemma show_table_sample_rows_witness :
  exists w' shown,
    SeedTask.show_table success_a task_showing world0 = (Return tt, task_showing, w') /\
    Permutation shown (rows customers).
Proof.
  destruct (@show_table_sample_rows success_a customers task_showing world0 eq_refl)
    as [w' [shown [hidden [Hrun [_ [_ [_ Hall]]]]]]].
  exists w', shown. split; [exact Hrun |]. apply Hall. cbn. lia.
Defined.

(** ** Runner and hook together *)

Lemma built_result_has_payload
  (base : ResourceNode -> Context -> M SeedRunner.t RunResult.t)
  (model : ResourceNode) (context : Context) (s s' : SeedRunner.t) (w w' : World)
  (r : RunResult.t) :
  SeedRunner._build_run_model_result base model context s w = (Return r, s', w') ->
  exists agate_result,
    load_result context "agate_table" = Some agate_result /\
    agate_table r = Some (table agate_result).
Proof.
  unfold SeedRunner._build_run_model_result, bind, ret, raise.
  destruct (base model context s w) as [[[r0 | e] s0] w0]; intros H.
  - destruct (load_result context "agate_table") as [agate_result |].
    + exists agate_result. inversion H. now split.
    + discriminate H.
  - discriminate H.
Qed.

(** X15.  Results built by [_build_run_model_result] can always be
    sampled: whatever the inherited builder is and whatever their status,
    the sampling hook returns on a list of such results and renders every
    one that is not an Error. *)
Theorem built_results_are_sampled
  (base : ResourceNode -> Context -> M SeedRunner.t RunResult.t)
  (results : list RunResult.t) (ts : SeedTask.t) (tw : World) :
  (forall r, In r results ->
             exists model context s w s' w',
               SeedRunner._build_run_model_result base model context s w =
                 (Return r, s', w')) ->
  samples_every_non_error results ts tw.
Proof.
  intros Hbuilt. apply show_tables_samples.
  intros r Hin _. destruct (Hbuilt r Hin) as [model [context [s [w [s' [w' H]]]]]].
  destruct (built_result_has_payload _ _ _ _ _ H) as [agate_result [_ Hpayload]].
  rewrite Hpayload. discriminate.
Qed.

Lemma built_results_are_sampled_witness :
  samples_every_non_error
    [RunResult.mk Success "INSERT 3" (1 # 2)%Q seed_a (Some customers)]
    task_showing world0.
Proof.
  apply (@built_results_are_sampled plain_builder).
  intros r [<- | []].
  exists seed_a, loaded_customers, runner_a, world0, runner_a, world0.
  reflexivity.
Defined.
